(** * eth-validator-watcher: missed block proposal detection

    A shallow embedding of [handler_event] / [handler_async]
    (eth_validator_watcher/entrypoint.py) and of
    [handle_missed_block_detection] (eth_validator_watcher/missed_blocks.py),
    with the properties of the slot catch-up, of the proposer resolution,
    of the missed-proposal counter and of the watched-key loading.

    Python integers are unbounded: slots and epochs are [Z].  Python [str]
    values are [string]s, one [ascii] per code point (code points below 256).
    Sets of public keys are [gset string].  Calls that leave the process
    (beacon node, Web3Signer, file system) are answered by collaborator
    functions over an abstract external state [W]; they may raise. *)

From Stdlib Require Import Ascii.
From stdpp Require Import base numbers list list_numbers sorting strings pretty gmap.

Local Open Scope Z_scope.

(** ** Data model *)

(** [NB_SLOT_PER_EPOCH = 32] (entrypoint.py line 15; missed_blocks.py takes
    the same name from utils). *)
Definition NB_SLOT_PER_EPOCH : Z := 32.

(** Modelled from the spec: models.py is not among the sources.  A block
    event carries the slot of the block (the [slot] field of [DataBlock]). *)
Module DataBlock.
Record t : Type := { slot : Z }.
End DataBlock.

(** Modelled from the spec: models.py is not among the sources.  The
    SlotOutcome of the specification, with the two fields the handlers
    build and read: [number] and [missed]. *)
Record SlotWithStatus : Type := { number : Z; missed : bool }.

(** Modelled from the spec: models.py is not among the sources.  A proposer
    duties answer has a [data] list whose items carry the [pubkey] of the
    proposer and the [slot] of the duty. *)
Module ProposerDuties.
Record DataItem : Type := { pubkey : string; slot : Z }.
Record t : Type := { data : list DataItem }.
End ProposerDuties.

(** The exceptions a tick can end with. *)
Inductive exception : Type :=
| StopIteration        (* [next] on an exhausted generator; inside the
                          coroutine [handler_event] Python turns it into a
                          RuntimeError, which aborts it in the same way *)
| UpstreamUnavailable  (* an HTTP request or the decoding of its answer failed *)
| OSError              (* a file could not be opened or written *)
| ValueError.          (* the event payload could not be decoded *)

Inductive result (A : Type) : Type :=
| Ok (a : A)
| Raise (e : exception).
Arguments Ok {A} a.
Arguments Raise {A} e.

(** The event of the SSE stream: [data] is the [DataBlock] decoded from the
    JSON payload of the event, [None] when the decoding raises. *)
Record MessageEvent : Type := { data : option DataBlock.t }.

(** ** Pure parts *)

(** [range(a, b)] *)
Definition range (a b : Z) : list Z := seqZ a (b - a).

(** Lines 68-77 of entrypoint.py, 36-41 of missed_blocks.py: the previous
    slot defaults to the slot before the current one, then every slot strictly
    between the previous and the current one is missed, and the current one
    is not. *)
Definition slots_with_status (previous_slot_number : option Z)
    (current_slot_number : Z) : list SlotWithStatus :=
  let previous_slot_number :=
    match previous_slot_number with
    | None => current_slot_number - 1
    | Some previous_slot_number => previous_slot_number
    end in
  ((λ slot, {| number := slot; missed := true |})
     <$> range (previous_slot_number + 1) current_slot_number)
  ++ [{| number := current_slot_number; missed := false |}].

(** The generator handed to [next] (entrypoint.py lines 97-101,
    missed_blocks.py lines 55-59): the pubkeys of the duties whose slot is
    the wanted one, in the order of the answer. *)
Definition proposer_pubkeys (proposer_duties_data : list ProposerDuties.DataItem)
    (number : Z) : list string :=
  ProposerDuties.pubkey
    <$> filter (λ proposer_duty_data,
                  ProposerDuties.slot proposer_duty_data = number)
               proposer_duties_data.

(** [str.isspace] on one character (code points below 256). *)
Definition isspace (c : ascii) : bool :=
  let n := nat_of_ascii c in
  ((9 <=? n) && (n <=? 13) || (28 <=? n) && (n <=? 32)
   || (n =? 133) || (n =? 160))%nat.

Fixpoint lstrip (s : string) : string :=
  match s with
  | String c s' => if isspace c then lstrip s' else s
  | EmptyString => EmptyString
  end.

Definition rstrip (s : string) : string :=
  String.rev (lstrip (String.rev s)).

(** [str.strip()] *)
Definition strip (s : string) : string := rstrip (lstrip s).

Definition newline : ascii := ascii_of_nat 10.

(** Iterating over a text file: the lines of [text], each with its
    terminating newline, the last one possibly without.  [text] is the
    content after Python's newline translation; [line] is the line being
    read. *)
Fixpoint readlines_from (line : string) (text : string) : list string :=
  match text with
  | EmptyString => match line with EmptyString => [] | _ => [line] end
  | String c text' =>
      if Ascii.eqb c newline
      then (line +:+ String c EmptyString) :: readlines_from EmptyString text'
      else readlines_from (line +:+ String c EmptyString) text'
  end.

Definition readlines (text : string) : list string :=
  readlines_from EmptyString text.

(** The body of [load_pubkeys_from_file] once the file is open
    (entrypoint.py line 51). *)
Definition pubkeys_of_lines (file_descriptor : list string) : gset string :=
  list_to_set ((λ line, "0x" +:+ strip line) <$> file_descriptor).

(** ** The effects of a tick *)

Section Watcher.
(** The state of everything outside the process. *)
Context {W : Type}.

(** What a tick can read and change: the outside, the lines printed so
    far, the Prometheus counter handed to the handlers, and the epochs for
    which proposer duties were requested (oldest first). *)
Record World : Type := {
  env : W;
  stdout : list string;
  missed_block_proposals_counter : nat;
  duties_requests : list Z;
}.

(** A computation that may raise; what it did before raising stays done. *)
Definition M (A : Type) : Type := World → result A * World.

#[export] Instance M_ret : MRet M := λ A a w, (Ok a, w).
#[export] Instance M_bind : MBind M := λ A B f m w,
  match m w with
  | (Ok a, w') => f a w'
  | (Raise e, w') => (Raise e, w')
  end.

Definition raise {A : Type} (e : exception) : M A := λ w, (Raise e, w).

(** A call to a collaborator: only the outside changes. *)
Definition call {A : Type} (f : W → result A * W) : M A := λ w,
  let '(r, env') := f (env w) in
  (r, {| env := env'; stdout := stdout w;
         missed_block_proposals_counter := missed_block_proposals_counter w;
         duties_requests := duties_requests w |}).

Definition print (message : string) : M unit := λ w,
  (Ok (), {| env := env w; stdout := stdout w ++ [message];
             missed_block_proposals_counter := missed_block_proposals_counter w;
             duties_requests := duties_requests w |}).

(** [missed_block_proposals_counter.inc()] *)
Definition inc : M unit := λ w,
  (Ok (), {| env := env w; stdout := stdout w;
             missed_block_proposals_counter :=
               S (missed_block_proposals_counter w);
             duties_requests := duties_requests w |}).

Definition log_duties_request (epoch : Z) : M unit := λ w,
  (Ok (), {| env := env w; stdout := stdout w;
             missed_block_proposals_counter := missed_block_proposals_counter w;
             duties_requests := duties_requests w ++ [epoch] |}).

(** [next(generator)] without a default. *)
Definition next {A : Type} (generator : list A) : M A :=
  match generator with
  | x :: _ => mret x
  | [] => raise StopIteration
  end.

(** [for x in xs: body(x)] *)
Fixpoint for_each {A : Type} (xs : list A) (body : A → M unit) : M unit :=
  match xs with
  | [] => mret ()
  | x :: xs' => body x;; for_each xs' body
  end.

(** [[await f(x) for x in xs]] *)
Fixpoint gather {A B : Type} (f : A → M B) (xs : list A) : M (list B) :=
  match xs with
  | [] => mret []
  | x :: xs' => y ← f x; ys ← gather f xs'; mret (y :: ys)
  end.

(** *** The collaborators *)

(** [beacon.get_proposer_duties(epoch)] of missed_blocks.py; beacon.py
    is not among the sources. *)
Record Beacon : Type := {
  get_proposer_duties : Z → W → result ProposerDuties.t * W;
}.

(** The [ClientSession] and the file system of entrypoint.py:
    - [session_get_proposer_duties beacon_url epoch]: the GET of
      [{beacon_url}/eth/v1/validator/duties/proposer/{epoch}], its JSON
      body decoded as [ProposerDuties];
    - [session_get_public_keys url]: the GET of
      [{url}/api/v1/eth2/publicKeys], its JSON body;
    - [path_open path]: the text of the file;
    - [path_write path text]: [mkdir] of the parent and overwrite. *)
Record ClientSession : Type := {
  session_get_proposer_duties :
    string → Z → W → result ProposerDuties.t * W;
  session_get_public_keys : string → W → result (list string) * W;
  path_open : string → W → result string * W;
  path_write : string → string → W → result unit * W;
}.

(** *** The report line *)

Definition emojis (is_our_validator missed : bool) : string * string :=
  let positive_emoji := if is_our_validator then "✨" else "✅" in
  let negative_emoji := if is_our_validator then "❌" else "💩" in
  if missed then (negative_emoji, "missed  ")
  else (positive_emoji, "proposed").

(** entrypoint.py lines 127-140 *)
Definition message_of_event (proposer_public_key : string)
    (pubkeys : gset string) (slot_with_status : SlotWithStatus) : string :=
  let is_our_validator := bool_decide (proposer_public_key ∈ pubkeys) in
  let '(emoji, proposed_or_missed) :=
    emojis is_our_validator (missed slot_with_status) in
  emoji +:+ " " +:+ (if is_our_validator then "Our " else "    ")
    +:+ "validator " +:+ proposer_public_key +:+ " " +:+ proposed_or_missed
    +:+ " block " +:+ pretty (number slot_with_status) +:+ " " +:+ emoji
    +:+ " - 🔑 " +:+ pretty (size pubkeys) +:+ " keys watched".

(** missed_blocks.py lines 63-81 *)
Definition message_of_detection (current_slot epoch : Z)
    (proposer_pubkey : string) (our_pubkeys : gset string)
    (slot_with_status : SlotWithStatus) : string :=
  let is_our_validator := bool_decide (proposer_pubkey ∈ our_pubkeys) in
  let birthday :=
    if decide (current_slot `mod` NB_SLOT_PER_EPOCH = 0)
    then " - 🎂" else "" in
  let '(emoji, proposed_or_missed) :=
    emojis is_our_validator (missed slot_with_status) in
  let short_proposer_pubkey := String.substring 0 10 proposer_pubkey in
  emoji +:+ " " +:+ (if is_our_validator then "Our " else "    ")
    +:+ "validator " +:+ short_proposer_pubkey +:+ " " +:+ proposed_or_missed
    +:+ " block at epoch " +:+ pretty epoch +:+ " - slot "
    +:+ pretty (number slot_with_status) +:+ " " +:+ emoji +:+ " - 🔑 "
    +:+ pretty (size our_pubkeys) +:+ " keys watched" +:+ birthday.

(** *** missed_blocks.py *)

(** One turn of the loop of [handle_missed_block_detection]
    (lines 44-86). *)
Definition detect_slot (beacon : Beacon) (current_slot : Z)
    (our_pubkeys : gset string) (slot_with_status : SlotWithStatus)
    : M unit :=
  let epoch := number slot_with_status `div` NB_SLOT_PER_EPOCH in
  log_duties_request epoch;;
  proposer_duties ← call (get_proposer_duties beacon epoch);
  let proposer_duties_data := ProposerDuties.data proposer_duties in
  proposer_pubkey ←
    next (proposer_pubkeys proposer_duties_data (number slot_with_status));
  let is_our_validator := bool_decide (proposer_pubkey ∈ our_pubkeys) in
  print (message_of_detection current_slot epoch proposer_pubkey
           our_pubkeys slot_with_status);;
  if is_our_validator && missed slot_with_status then inc else mret ().

Definition handle_missed_block_detection (beacon : Beacon)
    (data_block : DataBlock.t) (previous_slot : option Z)
    (our_pubkeys : gset string) : M Z :=
  let current_slot := DataBlock.slot data_block in
  for_each (slots_with_status previous_slot current_slot)
    (detect_slot beacon current_slot our_pubkeys);;
  mret current_slot.

(** *** entrypoint.py *)

Definition load_pubkeys_from_file (session : ClientSession)
    (path : string) : M (gset string) :=
  text ← call (path_open session path);
  mret (pubkeys_of_lines (readlines text)).

Definition load_pubkeys_from_web3signer (session : ClientSession)
    (url : string) : M (gset string) :=
  resp ← call (session_get_public_keys session url);
  mret (list_to_set resp).

(** One turn of the loop of [handler_event] (lines 80-145).
    [web3signer_urls] is the set of URLs in the order Python iterates
    over it. *)
Definition handle_slot (session : ClientSession) (beacon_url : string)
    (pubkeys_file_path : option string)
    (web3signer_urls : option (list string))
    (slot_with_status : SlotWithStatus) : M unit :=
  let epoch := number slot_with_status `div` NB_SLOT_PER_EPOCH in
  log_duties_request epoch;;
  proposer_duties ←
    call (session_get_proposer_duties session beacon_url epoch);
  let proposer_duties_data := ProposerDuties.data proposer_duties in
  proposer_public_key ←
    next (proposer_pubkeys proposer_duties_data (number slot_with_status));
  pubkeys_from_file ←
    match pubkeys_file_path with
    | Some path => load_pubkeys_from_file session path
    | None => mret ∅
    end;
  pubkeys_from_web3signer ←
    match web3signer_urls with
    | Some web3signer_urls =>
        sets ← gather (load_pubkeys_from_web3signer session) web3signer_urls;
        mret (⋃ sets)
    | None => mret ∅
    end;
  let pubkeys : gset string := pubkeys_from_file ∪ pubkeys_from_web3signer in
  let is_our_validator := bool_decide (proposer_public_key ∈ pubkeys) in
  print (message_of_event proposer_public_key pubkeys slot_with_status);;
  if is_our_validator && missed slot_with_status then inc else mret ().

Definition handler_event (event : MessageEvent)
    (previous_slot_number : option Z) (session : ClientSession)
    (beacon_url : string) (pubkeys_file_path : option string)
    (web3signer_urls : option (list string)) : M Z :=
  match data event with
  | None => raise ValueError
  | Some data_block =>
      let current_slot_number := DataBlock.slot data_block in
      for_each (slots_with_status previous_slot_number current_slot_number)
        (handle_slot session beacon_url pubkeys_file_path web3signer_urls);;
      mret current_slot_number
  end.

Definition write_liveliness_file (session : ClientSession)
    (liveliness_file : option string) : M unit :=
  match liveliness_file with
  | None => mret ()
  | Some liveliness_file => call (path_write session liveliness_file "OK")
  end.

(** The local variable of [handler_async] and the world, as the loop
    leaves them, with the exception that ended it, if any. *)
Record Run : Type := {
  previous_slot_number : option Z;
  raised : option exception;
  world : World;
}.

(** The [async for] of [handler_async] (lines 186-199) over the events
    the source delivers. *)
Fixpoint handler_async_loop (session : ClientSession) (beacon_url : string)
    (pubkeys_file_path : option string)
    (web3signer_urls : option (list string))
    (liveliness_file : option string)
    (events : list MessageEvent) (previous_slot_number : option Z)
    (w : World) : Run :=
  match events with
  | [] => {| previous_slot_number := previous_slot_number;
             raised := None; world := w |}
  | event :: events' =>
      match handler_event event previous_slot_number session beacon_url
              pubkeys_file_path web3signer_urls w with
      | (Raise e, w') =>
          {| previous_slot_number := previous_slot_number;
             raised := Some e; world := w' |}
      | (Ok current_slot_number, w') =>
          let previous_slot_number := Some current_slot_number in
          match write_liveliness_file session liveliness_file w' with
          | (Raise e, w'') =>
              {| previous_slot_number := previous_slot_number;
                 raised := Some e; world := w'' |}
          | (Ok _, w'') =>
              handler_async_loop session beacon_url pubkeys_file_path
                web3signer_urls liveliness_file events'
                previous_slot_number w''
          end
      end
  end.

(** [handler_async]: the counter starts at 0, nothing is printed yet and
    there is no previous slot. *)
Definition handler_async (session : ClientSession) (beacon_url : string)
    (pubkeys_file_path : option string)
    (web3signer_urls : option (list string))
    (liveliness_file : option string)
    (events : list MessageEvent) (outside : W) : Run :=
  handler_async_loop session beacon_url pubkeys_file_path web3signer_urls
    liveliness_file events None
    {| env := outside; stdout := []; missed_block_proposals_counter := 0;
       duties_requests := [] |}.

End Watcher.

(** ** What a tick leaves behind *)

(** What one turn of the loop settled for a slot: the duties received, the
    proposer resolved from them and the watched keys it was compared with. *)
Record Resolution : Type := {
  outcome : SlotWithStatus;
  duties : list ProposerDuties.DataItem;
  proposer : string;
  watched : gset string;
}.

Definition epoch_of (slot_with_status : SlotWithStatus) : Z :=
  number slot_with_status `div` NB_SLOT_PER_EPOCH.

(** The proposer is the first pubkey the generator yields. *)
Definition resolved (d : Resolution) : Prop :=
  head (proposer_pubkeys (duties d) (number (outcome d))) = Some (proposer d).

Definition ours_and_missed (d : Resolution) : bool :=
  bool_decide (proposer d ∈ watched d) && missed (outcome d).

Definition line_of_event (d : Resolution) : string :=
  message_of_event (proposer d) (watched d) (outcome d).

Definition line_of_detection (current_slot : Z) (d : Resolution) : string :=
  message_of_detection current_slot (epoch_of (outcome d)) (proposer d)
    (watched d) (outcome d).

Section Traces.
Context {W : Type}.
Local Abbreviation M := (@M W).
Implicit Types (w : @World W) (o : SlotWithStatus) (d : Resolution).

(** A turn that returns has requested the duties of the slot's epoch,
    printed one line and counted the slot if it is ours and missed; [ok]
    is what the turn guarantees about its resolution. *)
Definition turn_done (ok : Resolution → Prop) (line : Resolution → string)
    o w w' d : Prop :=
  outcome d = o ∧ ok d
  ∧ stdout w' = stdout w ++ [line d]
  ∧ missed_block_proposals_counter w'
    = (missed_block_proposals_counter w
       + (if ours_and_missed d then 1 else 0))%nat
  ∧ duties_requests w' = duties_requests w ++ [epoch_of o].

(** A turn that raises has requested the duties of the slot's epoch and
    has neither printed nor counted. *)
Definition turn_raised o w w' : Prop :=
  stdout w' = stdout w
  ∧ missed_block_proposals_counter w' = missed_block_proposals_counter w
  ∧ duties_requests w' = duties_requests w ++ [epoch_of o].

Definition turn_spec (ok : Resolution → Prop) (line : Resolution → string)
    (body : SlotWithStatus → M unit) : Prop :=
  ∀ o w r w', body o w = (r, w') →
    match r with
    | Ok _ => ∃ d, turn_done ok line o w w' d
    | Raise _ => turn_raised o w w'
    end.

(** The slots a loop went through: [ds] for the turns that returned,
    [rest] for the slots left when it stopped. *)
Definition loop_trace {A : Type} (ok : Resolution → Prop)
    (line : Resolution → string)
    (os : list SlotWithStatus) w (r : result A) w'
    (ds : list Resolution) (rest : list SlotWithStatus) : Prop :=
  os = (outcome <$> ds) ++ rest
  ∧ Forall ok ds
  ∧ stdout w' = stdout w ++ (line <$> ds)
  ∧ missed_block_proposals_counter w'
    = (missed_block_proposals_counter w
       + length (filter (λ d, ours_and_missed d) ds))%nat
  ∧ match r with
    | Ok _ =>
        rest = [] ∧ duties_requests w' = duties_requests w ++ (epoch_of <$> os)
    | Raise _ =>
        ∃ o rest', rest = o :: rest'
          ∧ duties_requests w'
            = duties_requests w ++ (epoch_of <$> (outcome <$> ds) ++ [o])
    end.

Definition quiet {A : Type} (m : M A) : Prop :=
  ∀ w r w', m w = (r, w') →
    stdout w' = stdout w
    ∧ missed_block_proposals_counter w' = missed_block_proposals_counter w
    ∧ duties_requests w' = duties_requests w.

(** *** The two handlers of a tick *)

(** A tick is handled either by [handler_event] of entrypoint.py or by
    [handle_missed_block_detection] of missed_blocks.py. *)
Inductive Handler : Type :=
| OnEvent (session : @ClientSession W) (beacon_url : string)
    (pubkeys_file_path : option string)
    (web3signer_urls : option (list string))
| OnBlock (beacon : @Beacon W) (our_pubkeys : gset string).

(** The handler on a block event for slot [N]. *)
Definition run_handler (h : Handler) (previous_slot : option Z) (N : Z)
    : M Z :=
  match h with
  | OnEvent session beacon_url pubkeys_file_path web3signer_urls =>
      handler_event {| data := Some {| DataBlock.slot := N |} |}
        previous_slot session beacon_url pubkeys_file_path web3signer_urls
  | OnBlock beacon our_pubkeys =>
      handle_missed_block_detection beacon {| DataBlock.slot := N |}
        previous_slot our_pubkeys
  end.

(** Its loop body, its duties query, its report line and what it
    guarantees about a resolution. *)
Definition turn (h : Handler) (N : Z) : SlotWithStatus → M unit :=
  match h with
  | OnEvent session beacon_url pubkeys_file_path web3signer_urls =>
      handle_slot session beacon_url pubkeys_file_path web3signer_urls
  | OnBlock beacon our_pubkeys => detect_slot beacon N our_pubkeys
  end.

Definition fetch_duties (h : Handler) (epoch : Z)
    : W → result ProposerDuties.t * W :=
  match h with
  | OnEvent session beacon_url _ _ =>
      session_get_proposer_duties session beacon_url epoch
  | OnBlock beacon _ => get_proposer_duties beacon epoch
  end.

Definition line_of (h : Handler) (N : Z) : Resolution → string :=
  match h with
  | OnEvent _ _ _ _ => line_of_event
  | OnBlock _ _ => line_of_detection N
  end.

(** The duties of a resolution are an answer of the handler's duties query
    for the epoch of the slot. *)
Definition answered (h : Handler) (d : Resolution) : Prop :=
  ∃ outside outside' proposer_duties,
    fetch_duties h (epoch_of (outcome d)) outside
      = (Ok proposer_duties, outside')
    ∧ ProposerDuties.data proposer_duties = duties d.

(** The watched keys of a resolution are the ones the handler was given
    ([OnBlock]) or the ones it loaded for that slot from the file and
    from Web3Signer ([OnEvent]). *)
Definition keys_loaded (h : Handler) (pubkeys : gset string) : Prop :=
  match h with
  | OnEvent session _ pubkeys_file_path web3signer_urls =>
      ∃ w1 w2 w3 pubkeys_from_file pubkeys_from_web3signer,
        match pubkeys_file_path with
        | Some path => load_pubkeys_from_file session path
        | None => mret ∅
        end w1 = (Ok pubkeys_from_file, w2)
        ∧ match web3signer_urls with
          | Some web3signer_urls =>
              sets ← gather (load_pubkeys_from_web3signer session)
                        web3signer_urls;
              mret (⋃ sets)
          | None => mret ∅
          end w2 = (Ok pubkeys_from_web3signer, w3)
        ∧ pubkeys = pubkeys_from_file ∪ pubkeys_from_web3signer
  | OnBlock _ our_pubkeys => pubkeys = our_pubkeys
  end.

Definition decided (h : Handler) (d : Resolution) : Prop :=
  resolved d ∧ answered h d ∧ keys_loaded h (watched d).

End Traces.

(** ** Statements and examples *)

(** C1 as the specification words it: the outcome of the triggering slot is
    missed exactly when the block-presence query for that slot answers
    false. *)
Definition missed_reflects_block_presence (HasBlockAtSlot : Z → bool)
    (previous_slot : option Z) (N : Z) : Prop :=
  ∀ o, last (slots_with_status previous_slot N) = Some o →
    (missed o = true ↔ HasBlockAtSlot N = false).

(** The slots of the events that can be decoded. *)
Definition event_slots (events : list MessageEvent) : list Z :=
  omap (λ event, DataBlock.slot <$> data event) events.

(** The slots of successive ticks, each tick starting from the slot the
    tick before it returned (lines 186-197 of entrypoint.py). *)
Fixpoint emitted (ticks : list Z) (previous_slot : option Z)
    : list SlotWithStatus :=
  match ticks with
  | [] => []
  | N :: ticks' => slots_with_status previous_slot N ++ emitted ticks' (Some N)
  end.

(** A line made of whitespace only (or of nothing). *)
Fixpoint whitespace_only (line : string) : bool :=
  match line with
  | EmptyString => true
  | String c line' => isspace c && whitespace_only line'
  end.

(** A session over an outside without state: every duties request is
    answered with [table], no key is served by Web3Signer, every file
    reads [text]. *)
Definition answering (table : list ProposerDuties.DataItem) (text : string)
    : @ClientSession unit := {|
  session_get_proposer_duties := λ _ _ u,
    (Ok {| ProposerDuties.data := table |}, u);
  session_get_public_keys := λ _ u, (Ok [], u);
  path_open := λ _ u, (Ok text, u);
  path_write := λ _ _ u, (Ok (), u);
|}.

(** The same as a [Beacon]. *)
Definition node (table : list ProposerDuties.DataItem) : @Beacon unit := {|
  get_proposer_duties := λ _ u, (Ok {| ProposerDuties.data := table |}, u);
|}.

(** A session whose beacon node answers a number of duties requests and
    then stops answering; the outside is the number of answers left. *)
Definition failing_after (table : list ProposerDuties.DataItem)
    : @ClientSession nat := {|
  session_get_proposer_duties := λ _ _ left,
    match left with
    | O => (Raise UpstreamUnavailable, O)
    | S left' => (Ok {| ProposerDuties.data := table |}, left')
    end;
  session_get_public_keys := λ _ left, (Ok [], left);
  path_open := λ _ left, (Ok "", left);
  path_write := λ _ _ left, (Ok (), left);
|}.

Definition duty (pubkey : string) (slot : Z) : ProposerDuties.DataItem :=
  {| ProposerDuties.pubkey := pubkey; ProposerDuties.slot := slot |}.

Definition block_event (slot : Z) : MessageEvent :=
  {| data := Some {| DataBlock.slot := slot |} |}.

(** The world before the first tick. *)
Definition fresh {W : Type} (outside : W) : @World W :=
  {| env := outside; stdout := []; missed_block_proposals_counter := 0;
     duties_requests := [] |}.

(** The text of a keys file: one key per line, each line ended by a
    newline. *)
Definition keys_file (keys : list string) : string :=
  String.concat "" ((λ key, key +:+ String newline "") <$> keys).

(** No newline in a string. *)
Fixpoint single_line (s : string) : bool :=
  match s with
  | EmptyString => true
  | String c s' => negb (Ascii.eqb c newline) && single_line s'
  end.

(** [s.endswith(suffix)] *)
Definition ends_with (suffix s : string) : bool :=
  String.prefix (String.rev suffix) (String.rev s).

(** The line of a watched and missed slot. *)
Definition alarm (line : string) : bool := String.prefix "❌" line.

(** A session whose files cannot be written. *)
Definition read_only (table : list ProposerDuties.DataItem)
    : @ClientSession unit := {|
  session_get_proposer_duties := λ _ _ u,
    (Ok {| ProposerDuties.data := table |}, u);
  session_get_public_keys := λ _ u, (Ok [], u);
  path_open := λ _ u, (Ok "", u);
  path_write := λ _ _ u, (Raise OSError, u);
|}.

(** A session whose Web3Signer instances serve the keys [answer] gives for
    their URL. *)
Definition signing (answer : string → list string) : @ClientSession unit := {|
  session_get_proposer_duties := λ _ _ u,
    (Ok {| ProposerDuties.data := [] |}, u);
  session_get_public_keys := λ url u, (Ok (answer url), u);
  path_open := λ _ u, (Ok "", u);
  path_write := λ _ _ u, (Ok (), u);
|}.

(** ** Lemmas on the loop and its two bodies *)

Section TraceLemmas.
Context {W : Type}.
Local Abbreviation M := (@M W).
Implicit Types (w : @World W) (o : SlotWithStatus) (d : Resolution).
Implicit Types (h : @Handler W).

Lemma bind_unfold {A B : Type} (m : M A) (f : A → M B) w :
  (m ≫= f) w
  = match m w with
    | (Ok a, w1) => f a w1
    | (Raise e, w1) => (Raise e, w1)
    end.
Proof. reflexivity. Qed.

Lemma for_each_cons {A : Type} (x : A) xs (body : A → M unit) w :
  for_each (x :: xs) body w
  = match body x w with
    | (Ok _, w1) => for_each xs body w1
    | (Raise e, w1) => (Raise e, w1)
    end.
Proof. reflexivity. Qed.

Lemma for_each_trace ok line body :
  turn_spec ok line body →
  ∀ os w r w', for_each os body w = (r, w') →
    ∃ ds rest, loop_trace ok line os w r w' ds rest.
Proof.
  intros Hbody os. induction os as [|o os IH]; intros w r w' Hrun.
  - inversion Hrun; subst. exists [], []. unfold loop_trace; simpl.
    rewrite !app_nil_r, Nat.add_0_r. split_and!; done.
  - rewrite for_each_cons in Hrun.
    destruct (body o w) as [[[]|e] w1] eqn:Hturn.
    + apply Hbody in Hturn as (d & Ho & Hres & Hout & Hcnt & Hreq).
      apply IH in Hrun as (ds & rest & Hos & Hress & Hout' & Hcnt' & Hr).
      exists (d :: ds), rest. unfold loop_trace.
      rewrite filter_cons. split_and!.
      * simpl. by rewrite Ho, Hos.
      * by constructor.
      * rewrite Hout', Hout. simpl. by rewrite <-app_assoc.
      * rewrite Hcnt', Hcnt. destruct (ours_and_missed d) eqn:Hd.
        -- rewrite decide_True by done. simpl. lia.
        -- rewrite decide_False by (by intros []). simpl. lia.
      * destruct r as [[]|e].
        -- destruct Hr as [-> Hreq']. split; [done|].
           rewrite Hreq', Hreq. simpl. by rewrite <-app_assoc.
        -- destruct Hr as (o' & rest' & -> & Hreq').
           exists o', rest'. split; [done|].
           rewrite Hreq', Hreq. simpl. rewrite Ho. by rewrite <-app_assoc.
    + inversion Hrun; subst. apply Hbody in Hturn as (Hout & Hcnt & Hreq).
      exists [], (o :: os). unfold loop_trace; simpl.
      rewrite app_nil_r, Nat.add_0_r. split_and!; try done.
      by exists o, os.
Qed.

(** *** The two loop bodies *)

Lemma report_run (message : string) (b : bool) w :
  (print message;; if b then inc else mret ()) w
  = (Ok (), {| env := env w; stdout := stdout w ++ [message];
               missed_block_proposals_counter :=
                 (missed_block_proposals_counter w + (if b then 1 else 0))%nat;
               duties_requests := duties_requests w |}).
Proof.
  rewrite bind_unfold. destruct b; simpl; unfold inc, mret, M_ret; simpl;
    do 2 f_equal; lia.
Qed.

Lemma next_run {A : Type} (generator : list A) w :
  next generator w
  = match head generator with
    | Some x => (Ok x, w)
    | None => (Raise StopIteration, w)
    end.
Proof. by destruct generator. Qed.

Lemma detect_slot_spec (beacon : @Beacon W) current_slot our_pubkeys :
  turn_spec (decided (OnBlock beacon our_pubkeys))
    (line_of_detection current_slot)
    (detect_slot beacon current_slot our_pubkeys).
Proof.
  intros o w r w' Hrun. unfold detect_slot in Hrun.
  rewrite bind_unfold in Hrun. simpl in Hrun.
  rewrite bind_unfold in Hrun. unfold call at 1 in Hrun. simpl in Hrun.
  destruct (get_proposer_duties beacon _ (env w)) as [[pd|e] env1] eqn:Hcall.
  - rewrite bind_unfold, next_run in Hrun.
    destruct (head _) as [pk|] eqn:Hpk.
    + rewrite report_run in Hrun. inversion Hrun; subst; clear Hrun.
      exists {| outcome := o; duties := ProposerDuties.data pd;
                proposer := pk; watched := our_pubkeys |}.
      unfold turn_done, decided, resolved; simpl.
      split_and!; try done. by exists (env w), env1, pd.
    + inversion Hrun; subst. by repeat split.
  - inversion Hrun; subst. by repeat split.
Qed.

Lemma quiet_ret {A : Type} (x : A) : quiet (mret x : M A).
Proof. intros w r w' Hrun. by inversion Hrun. Qed.

Lemma quiet_call {A : Type} (f : W → result A * W) : quiet (call f).
Proof.
  intros w r w' Hrun. unfold call in Hrun.
  destruct (f (env w)). by inversion Hrun.
Qed.

Lemma quiet_bind {A B : Type} (m : M A) (f : A → M B) :
  quiet m → (∀ x, quiet (f x)) → quiet (m ≫= f).
Proof.
  intros Hm Hf w r w' Hrun. rewrite bind_unfold in Hrun.
  destruct (m w) as [[x|e] w1] eqn:Hmw; apply Hm in Hmw as (H1 & H2 & H3).
  - apply Hf in Hrun as (? & ? & ?). split_and!; congruence.
  - by inversion Hrun; subst.
Qed.

Lemma quiet_gather {A B : Type} (f : A → M B) xs :
  (∀ x, quiet (f x)) → quiet (gather f xs).
Proof.
  intros Hf. induction xs as [|x xs IH]; simpl.
  - apply quiet_ret.
  - apply quiet_bind; [done|]. intros y.
    apply quiet_bind; [done|]. intros ys. apply quiet_ret.
Qed.

Lemma quiet_load_pubkeys_from_file (session : @ClientSession W) path :
  quiet (load_pubkeys_from_file session path).
Proof.
  apply quiet_bind; [apply quiet_call|]. intros; apply quiet_ret.
Qed.

Lemma quiet_load_pubkeys_from_web3signer (session : @ClientSession W) url :
  quiet (load_pubkeys_from_web3signer session url).
Proof.
  apply quiet_bind; [apply quiet_call|]. intros; apply quiet_ret.
Qed.

Lemma bind_quiet_inv {A B : Type} (m : M A) (f : A → M B) w r w' :
  quiet m → (m ≫= f) w = (r, w') →
  (∃ x w1, m w = (Ok x, w1) ∧ stdout w1 = stdout w
     ∧ missed_block_proposals_counter w1 = missed_block_proposals_counter w
     ∧ duties_requests w1 = duties_requests w
     ∧ f x w1 = (r, w'))
  ∨ (∃ e, r = Raise e ∧ stdout w' = stdout w
     ∧ missed_block_proposals_counter w' = missed_block_proposals_counter w
     ∧ duties_requests w' = duties_requests w).
Proof.
  intros Hm Hrun. rewrite bind_unfold in Hrun.
  destruct (m w) as [[x|e] w1] eqn:Hmw;
    pose proof (Hm _ _ _ Hmw) as (H1 & H2 & H3).
  - left. by exists x, w1.
  - right. inversion Hrun; subst. by exists e.
Qed.

Lemma handle_slot_spec (session : @ClientSession W) beacon_url
    pubkeys_file_path web3signer_urls :
  turn_spec
    (decided (OnEvent session beacon_url pubkeys_file_path web3signer_urls))
    line_of_event
    (handle_slot session beacon_url pubkeys_file_path web3signer_urls).
Proof.
  intros o w r w' Hrun. unfold handle_slot in Hrun.
  rewrite bind_unfold in Hrun. simpl in Hrun.
  rewrite bind_unfold in Hrun. unfold call at 1 in Hrun. simpl in Hrun.
  destruct (session_get_proposer_duties session _ _ (env w))
    as [[pd|e] env1] eqn:Hcall; [|by inversion Hrun; subst].
  rewrite bind_unfold, next_run in Hrun.
  destruct (head _) as [pk|] eqn:Hpk; [|by inversion Hrun; subst].
  apply bind_quiet_inv in Hrun
    as [(from_file & w1 & Hfile & Ho1 & Hc1 & Hq1 & Hrun)
       |(e & -> & ? & ? & ?)];
    [| done |].
  2:{ destruct pubkeys_file_path;
        [apply quiet_load_pubkeys_from_file|apply quiet_ret]. }
  apply bind_quiet_inv in Hrun
    as [(from_web3signer & w2 & Hweb & Ho2 & Hc2 & Hq2 & Hrun)
       |(e & -> & ? & ? & ?)].
  - rewrite report_run in Hrun. inversion Hrun; subst; clear Hrun.
    exists {| outcome := o; duties := ProposerDuties.data pd;
              proposer := pk; watched := from_file ∪ from_web3signer |}.
    unfold turn_done, line_of_event, decided, resolved; simpl.
    rewrite Ho2, Ho1, Hc2, Hc1, Hq2, Hq1. split_and!; try done.
    + by exists (env w), env1, pd.
    + eexists _, w1, w2, from_file, from_web3signer. by split_and!.
  - unfold turn_raised, epoch_of. simpl in *. split_and!; congruence.
  - destruct web3signer_urls; [|apply quiet_ret].
    apply quiet_bind; [|intros; apply quiet_ret].
    apply quiet_gather, quiet_load_pubkeys_from_web3signer.
Qed.

Lemma run_handler_unfold h previous_slot N w :
  run_handler h previous_slot N w
  = match for_each (slots_with_status previous_slot N) (turn h N) w with
    | (Ok _, w') => (Ok N, w')
    | (Raise e, w') => (Raise e, w')
    end.
Proof. by destruct h. Qed.

Lemma turn_spec_turn h N : turn_spec (decided h) (line_of h N) (turn h N).
Proof.
  destruct h; [apply handle_slot_spec|apply detect_slot_spec].
Qed.

Lemma decided_resolved h d : decided h d → resolved d.
Proof. by intros []. Qed.

(** Whatever a tick ends with, it went through a prefix of its slots. *)
Lemma run_handler_trace h previous_slot N w r w' :
  run_handler h previous_slot N w = (r, w') →
  (∀ m, r = Ok m → m = N)
  ∧ ∃ ds rest,
      loop_trace (decided h) (line_of h N)
        (slots_with_status previous_slot N) w r w' ds rest.
Proof.
  rewrite run_handler_unfold. intros Hrun.
  destruct (for_each _ _ w) as [[[]|e] w1] eqn:Hloop;
    inversion Hrun; subst; clear Hrun;
    apply (for_each_trace _ _ _ (turn_spec_turn h N)) in Hloop
      as (ds & rest & Htrace).
  - split; [by intros m [= <-]|]. by exists ds, rest.
  - split; [done|]. by exists ds, rest.
Qed.

End TraceLemmas.

(** ** The slots of a tick *)

Lemma slots_with_status_numbers previous_slot N :
  number <$> slots_with_status previous_slot N
  = range (default (N - 1) previous_slot + 1) N ++ [N].
Proof.
  unfold slots_with_status. rewrite fmap_app, <-list_fmap_compose. simpl.
  f_equal. destruct previous_slot; simpl; apply list_fmap_id.
Qed.

Lemma slots_with_status_gap P N :
  P < N → number <$> slots_with_status (Some P) N = seqZ (P + 1) (N - P).
Proof.
  intros HPN. rewrite slots_with_status_numbers. simpl. unfold range.
  replace (N - P) with ((N - (P + 1)) + 1) by lia.
  rewrite seqZ_app by lia. f_equal.
  replace (P + 1 + (N - (P + 1))) with N by lia.
  rewrite seqZ_cons by lia. by rewrite seqZ_nil by lia.
Qed.

Lemma slots_with_status_no_gap P N :
  N ≤ P + 1 →
  slots_with_status (Some P) N = [{| number := N; missed := false |}].
Proof.
  intros HPN. unfold slots_with_status, range. by rewrite seqZ_nil by lia.
Qed.

Lemma slots_with_status_first N :
  slots_with_status None N = [{| number := N; missed := false |}].
Proof. unfold slots_with_status, range. by rewrite seqZ_nil by lia. Qed.

Lemma slots_with_status_None N :
  slots_with_status None N = slots_with_status (Some (N - 1)) N.
Proof. done. Qed.

Lemma slots_with_status_last previous_slot N :
  last (slots_with_status previous_slot N)
  = Some {| number := N; missed := false |}.
Proof. unfold slots_with_status. apply last_snoc. Qed.

Lemma slots_with_status_missed previous_slot N o :
  o ∈ slots_with_status previous_slot N →
  (missed o = true ∧ number o < N) ∨ o = {| number := N; missed := false |}.
Proof.
  unfold slots_with_status. rewrite elem_of_app, list_elem_of_fmap.
  intros [(s & -> & Hs)|Ho].
  - left. unfold range in Hs. apply elem_of_seqZ in Hs. simpl. split; [done|lia].
  - right. by apply list_elem_of_singleton in Ho.
Qed.

(** ** Proposer resolution *)

Lemma proposer_pubkeys_none table s :
  (∀ entry, entry ∈ table → ProposerDuties.slot entry ≠ s) →
  proposer_pubkeys table s = [].
Proof.
  intros Hnone. unfold proposer_pubkeys.
  induction table as [|entry table IH]; [done|].
  rewrite filter_cons, decide_False by (apply Hnone; left).
  apply IH. intros entry' Hin. apply Hnone. by right.
Qed.

Lemma proposer_pubkeys_unique table s entry :
  NoDup (ProposerDuties.slot <$> table) →
  entry ∈ table → ProposerDuties.slot entry = s →
  proposer_pubkeys table s = [ProposerDuties.pubkey entry].
Proof.
  unfold proposer_pubkeys.
  induction table as [|first table IH]; intros Hunique Hin Hs.
  - by apply elem_of_nil in Hin.
  - rewrite fmap_cons in Hunique. apply NoDup_cons in Hunique as [Hfirst Hunique].
    rewrite filter_cons. apply elem_of_cons in Hin as [->|Hin].
    + rewrite decide_True by done. simpl. f_equal.
      apply (proposer_pubkeys_none table s). intros other Hother Heq.
      apply Hfirst. rewrite Hs, <-Heq. by apply list_elem_of_fmap_2.
    + rewrite decide_False; [by apply IH|].
      intros Heq. apply Hfirst. rewrite Heq, <-Hs. by apply list_elem_of_fmap_2.
Qed.

Lemma proposer_pubkeys_Permutation table table' s :
  NoDup (ProposerDuties.slot <$> table) → table ≡ₚ table' →
  proposer_pubkeys table' s = proposer_pubkeys table s.
Proof.
  intros Hunique Hperm.
  destruct (decide (Exists (λ entry, ProposerDuties.slot entry = s) table))
    as [(entry & Hin & Hs)%Exists_exists|Hnone];
    [|rewrite Exists_exists in Hnone].
  - rewrite (proposer_pubkeys_unique table s entry) by done.
    apply proposer_pubkeys_unique; [by rewrite <-Hperm|by rewrite <-Hperm|done].
  - rewrite !proposer_pubkeys_none; [done|..].
    + intros entry Hin Hs. apply Hnone. by exists entry.
    + intros entry Hin Hs. apply Hnone. exists entry. by rewrite Hperm.
Qed.

(** ** The slots of a run *)

Lemma emitted_above ticks P :
  StronglySorted Z.lt ticks → Forall (λ N, P < N) ticks →
  Forall (λ s, P < s) (number <$> emitted ticks (Some P)).
Proof.
  revert P. induction ticks as [|N ticks IH]; intros P Hsorted Hafter.
  - constructor.
  - apply StronglySorted_inv in Hsorted as [Hsorted HN].
    apply Forall_cons in Hafter as [HPN Hafter]. simpl.
    rewrite fmap_app, slots_with_status_gap by done.
    apply Forall_app. split.
    + apply Forall_seqZ. lia.
    + eapply Forall_impl; [by apply IH|]. simpl. lia.
Qed.

Lemma emitted_NoDup ticks previous_slot :
  StronglySorted Z.lt ticks →
  (∀ P, previous_slot = Some P → Forall (λ N, P < N) ticks) →
  NoDup (number <$> emitted ticks previous_slot).
Proof.
  destruct ticks as [|N ticks]; intros Hsorted Hafter; [constructor|].
  apply StronglySorted_inv in Hsorted as [Hsorted HN]. simpl.
  rewrite fmap_app. apply NoDup_app. split_and!.
  - rewrite slots_with_status_numbers. unfold range.
    apply NoDup_app. split_and!; [apply NoDup_seqZ| |apply NoDup_singleton].
    intros s Hs%elem_of_seqZ ->%list_elem_of_singleton. lia.
  - intros s Hs Hs'.
    pose proof (emitted_above ticks N Hsorted HN) as Habove.
    rewrite Forall_forall in Habove. apply Habove in Hs'.
    rewrite slots_with_status_numbers in Hs. unfold range in Hs.
    apply elem_of_app in Hs as [Hs%elem_of_seqZ| ->%list_elem_of_singleton]; lia.
  - clear Hafter previous_slot. revert N HN.
    induction Hsorted as [|N' ticks Hsorted IH HN']; intros N HN; [constructor|].
    simpl. rewrite fmap_app. apply Forall_cons in HN as [HNN' HN].
    apply NoDup_app. split_and!.
    + rewrite slots_with_status_gap by done. apply NoDup_seqZ.
    + intros s Hs Hs'.
      pose proof (emitted_above ticks N' Hsorted HN') as Habove.
      rewrite Forall_forall in Habove. apply Habove in Hs'.
      rewrite slots_with_status_gap in Hs by done.
      apply elem_of_seqZ in Hs. lia.
    + by apply IH.
Qed.

(** ** The watched keys of a file *)

Lemma pubkeys_of_lines_spec file_descriptor key :
  key ∈ pubkeys_of_lines file_descriptor
  ↔ ∃ line, line ∈ file_descriptor ∧ key = "0x" +:+ strip line.
Proof.
  unfold pubkeys_of_lines. rewrite elem_of_list_to_set, list_elem_of_fmap.
  split; intros (line & ? & ?); by exists line.
Qed.

Lemma lstrip_whitespace_only line :
  whitespace_only line = true → lstrip line = "".
Proof.
  induction line as [|c line IH]; [done|]. simpl.
  intros [Hc Hline]%andb_true_iff. rewrite Hc. by apply IH.
Qed.

Lemma strip_whitespace_only line :
  whitespace_only line = true → strip line = "".
Proof.
  intros Hblank. unfold strip. by rewrite lstrip_whitespace_only.
Qed.

(** ** The claims *)

Section Claims.
Context {W : Type}.
Local Abbreviation M := (@M W).
Implicit Types (w : @World W) (o : SlotWithStatus) (d : Resolution).
Implicit Types (h : @Handler W).

Lemma loop_trace_returned {A : Type} ok line os w (m : A) w' ds rest :
  loop_trace ok line os w (Ok m) w' ds rest →
  outcome <$> ds = os ∧ Forall ok ds
  ∧ stdout w' = stdout w ++ (line <$> ds)
  ∧ missed_block_proposals_counter w'
    = (missed_block_proposals_counter w
       + length (filter (λ d, ours_and_missed d) ds))%nat
  ∧ duties_requests w' = duties_requests w ++ (epoch_of <$> os).
Proof.
  intros (Hos & Hok & Hout & Hcnt & -> & Hreq).
  rewrite app_nil_r in Hos. by subst os.
Qed.

Lemma run_handler_returned h previous_slot N w m w' :
  run_handler h previous_slot N w = (Ok m, w') →
  m = N
  ∧ ∃ ds, outcome <$> ds = slots_with_status previous_slot N
      ∧ Forall (decided h) ds
      ∧ stdout w' = stdout w ++ (line_of h N <$> ds)
      ∧ missed_block_proposals_counter w'
        = (missed_block_proposals_counter w
           + length (filter (λ d, ours_and_missed d) ds))%nat
      ∧ duties_requests w'
        = duties_requests w
          ++ (epoch_of <$> slots_with_status previous_slot N).
Proof.
  intros Hrun. apply run_handler_trace in Hrun as (Hm & ds & rest & Htrace).
  split; [by apply Hm|]. exists ds. by apply loop_trace_returned in Htrace.
Qed.

(** C1 (as amended).  The slot that triggers a tick is always reported as
    not missed, whatever a block-presence query would say (the handlers
    make none); on a tick without gap (no previous slot, or the previous
    slot is N-1) a handler that returns has reported exactly one outcome,
    the one of slot N, not missed. *)
Theorem C1_trigger_slot_not_missed h previous_slot N w m w'
    (Hrun : run_handler h previous_slot N w = (Ok m, w')) :
  last (slots_with_status previous_slot N)
    = Some {| number := N; missed := false |}
  ∧ ∃ ds d,
      slots_with_status previous_slot N = (outcome <$> ds) ++ [outcome d]
      ∧ outcome d = {| number := N; missed := false |}
      ∧ stdout w' = stdout w ++ (line_of h N <$> ds) ++ [line_of h N d]
      ∧ (previous_slot = None ∨ previous_slot = Some (N - 1) → ds = []).
Proof.
  split; [apply slots_with_status_last|].
  apply run_handler_returned in Hrun as (_ & ds & Hos & _ & Hout & _).
  unfold slots_with_status in Hos at 1.
  apply fmap_app_inv in Hos as (ds1 & ds2 & Hos1 & Hos2 & ->).
  destruct ds2 as [|d [|? ?]]; try done. injection Hos2 as Hd.
  exists ds1, d. split_and!.
  - unfold slots_with_status. by rewrite Hos1, Hd.
  - done.
  - by rewrite Hout, fmap_app.
  - intros Hgap. apply (fmap_nil_inv outcome). rewrite <-Hos1.
    unfold range. rewrite seqZ_nil; [done|].
    destruct Hgap as [-> | ->]; simpl; lia.
Qed.

(** C2.  On a tick that jumps from slot P to slot N > P+1, the slots of
    the tick are those of (P, N], each once and in order; every one
    before N is missed and N is not; a handler that returns has printed
    one report line for each of them. *)
Theorem C2_catch_up_covers_the_gap h P N w m w'
    (Hgap : P + 1 < N)
    (Hrun : run_handler h (Some P) N w = (Ok m, w')) :
  number <$> slots_with_status (Some P) N = seqZ (P + 1) (N - P)
  ∧ NoDup (number <$> slots_with_status (Some P) N)
  ∧ (∀ s, s ∈ number <$> slots_with_status (Some P) N ↔ P < s ≤ N)
  ∧ (∀ o, o ∈ slots_with_status (Some P) N →
       missed o = bool_decide (number o < N))
  ∧ ∃ ds, outcome <$> ds = slots_with_status (Some P) N
      ∧ stdout w' = stdout w ++ (line_of h N <$> ds).
Proof.
  assert (number <$> slots_with_status (Some P) N = seqZ (P + 1) (N - P))
    as Hnum by (apply slots_with_status_gap; lia).
  split_and!.
  - done.
  - rewrite Hnum. apply NoDup_seqZ.
  - intros s. rewrite Hnum, elem_of_seqZ. lia.
  - intros o [[-> Ho]| ->]%slots_with_status_missed.
    + by rewrite bool_decide_eq_true_2.
    + simpl. rewrite bool_decide_eq_false_2; [done|lia].
  - apply run_handler_returned in Hrun as (_ & ds & Hos & _ & Hout & _).
    by exists ds.
Qed.
(** A handler that returns from a tick of one slot has printed one line
    about it and has not counted it. *)
Lemma run_handler_single h previous_slot N w m w' :
  slots_with_status previous_slot N = [{| number := N; missed := false |}] →
  run_handler h previous_slot N w = (Ok m, w') →
  m = N
  ∧ ∃ d, outcome d = {| number := N; missed := false |}
      ∧ decided h d
      ∧ stdout w' = stdout w ++ [line_of h N d]
      ∧ missed_block_proposals_counter w' = missed_block_proposals_counter w
      ∧ duties_requests w'
        = duties_requests w ++ [N `div` NB_SLOT_PER_EPOCH].
Proof.
  intros Hone Hrun.
  apply run_handler_returned in Hrun
    as (-> & ds & Hos & Hok & Hout & Hcnt & Hreq).
  split; [done|]. rewrite Hone in Hos, Hreq.
  destruct ds as [|d [|? ?]]; try done. injection Hos as Hd.
  apply Forall_inv in Hok. exists d. split_and!; try done.
  rewrite Hcnt, filter_cons, decide_False; [simpl; lia|].
  unfold ours_and_missed. rewrite Hd. simpl. rewrite andb_false_r. by intros [].
Qed.

(** C7.  On the first tick (no previous slot) the previous slot is taken
    to be N-1: the tick has the single slot N, not missed, and a handler
    that returns has requested the duties of the epoch of N, printed one
    line and counted nothing.  With N = 63 the only slot is 63, of
    epoch 1. *)
Theorem C7_first_tick_single_slot h N w m w'
    (Hrun : run_handler h None N w = (Ok m, w')) :
  slots_with_status None N = slots_with_status (Some (N - 1)) N
  ∧ slots_with_status None N = [{| number := N; missed := false |}]
  ∧ run_handler h None N = run_handler h (Some (N - 1)) N
  ∧ m = N
  ∧ (∃ d, outcome d = {| number := N; missed := false |}
       ∧ stdout w' = stdout w ++ [line_of h N d]
       ∧ missed_block_proposals_counter w' = missed_block_proposals_counter w
       ∧ duties_requests w'
         = duties_requests w ++ [N `div` NB_SLOT_PER_EPOCH])
  ∧ slots_with_status None 63 = [{| number := 63; missed := false |}]
  ∧ 63 `div` NB_SLOT_PER_EPOCH = 1.
Proof.
  pose proof (run_handler_single _ _ _ _ _ _
                (slots_with_status_first N) Hrun) as (-> & d & Hd & _ & Hrest).
  split_and!.
  - reflexivity.
  - apply slots_with_status_first.
  - by destruct h.
  - reflexivity.
  - by exists d.
  - reflexivity.
  - reflexivity.
Qed.

(** C9.  A tick whose slot N is not above the previous slot P has the
    single slot N, not missed; a handler that returns has printed one
    line, counted nothing and returned N, which [handler_async] stores as
    the previous slot; from there a later tick at any slot M covers again
    every slot of (N, P] up to M. *)
Theorem C9_non_increasing_tick h P N w m w'
    (HNP : N ≤ P)
    (Hrun : run_handler h (Some P) N w = (Ok m, w')) :
  slots_with_status (Some P) N = [{| number := N; missed := false |}]
  ∧ m = N
  ∧ (∃ d, outcome d = {| number := N; missed := false |}
       ∧ stdout w' = stdout w ++ [line_of h N d]
       ∧ missed_block_proposals_counter w' = missed_block_proposals_counter w)
  ∧ (∀ session beacon_url pubkeys_file_path web3signer_urls liveliness_file,
       h = OnEvent session beacon_url pubkeys_file_path web3signer_urls →
       previous_slot_number
         (handler_async_loop session beacon_url pubkeys_file_path
            web3signer_urls liveliness_file
            [{| data := Some {| DataBlock.slot := N |} |}] (Some P) w)
       = Some N)
  ∧ (∀ M s, N < s ≤ P → s ≤ M →
       s ∈ number <$> slots_with_status (Some m) M).
Proof.
  assert (slots_with_status (Some P) N
          = [{| number := N; missed := false |}]) as Hone
    by (apply slots_with_status_no_gap; lia).
  pose proof (run_handler_single _ _ _ _ _ _ Hone Hrun)
    as (-> & d & Hd & _ & Hout & Hcnt & _).
  split_and!; try done.
  - by exists d.
  - intros session beacon_url pubkeys_file_path web3signer_urls
      liveliness_file ->. simpl in *. rewrite Hrun.
    by destruct (write_liveliness_file _ _ _) as [[[]|?] ?].
  - intros M s Hs HM. rewrite slots_with_status_gap by lia.
    apply elem_of_seqZ. lia.
Qed.


Lemma for_each_app {A : Type} (xs ys : list A) (body : A → M unit) w :
  for_each (xs ++ ys) body w
  = match for_each xs body w with
    | (Ok _, w1) => for_each ys body w1
    | (Raise e, w1) => (Raise e, w1)
    end.
Proof.
  revert w. induction xs as [|x xs IH]; intros w; [done|].
  simpl app. rewrite !for_each_cons.
  destruct (body x w) as [[[]|e] w1]; [apply IH|done].
Qed.

(** A turn whose duties answer has no entry for its slot raises
    [StopIteration] right after the request. *)
Lemma turn_without_duty h N o w table outside' :
  fetch_duties h (epoch_of o) (env w) = (Ok table, outside') →
  proposer_pubkeys (ProposerDuties.data table) (number o) = [] →
  turn h N o w
  = (Raise StopIteration,
     {| env := outside'; stdout := stdout w;
        missed_block_proposals_counter := missed_block_proposals_counter w;
        duties_requests := duties_requests w ++ [epoch_of o] |}).
Proof.
  intros Hfetch Hnone. unfold epoch_of in *.
  destruct h; simpl in *; unfold handle_slot, detect_slot;
    rewrite bind_unfold; simpl; rewrite bind_unfold; unfold call at 1;
    simpl; rewrite Hfetch, bind_unfold, Hnone; done.
Qed.

(** C8.  The proposer of a slot is the pubkey of the duty whose slot field
    is that slot, wherever it stands in the answer: when no two duties of
    the answer share a slot, reordering the answer changes nothing.  Every
    turn of the loop asks for the duties of the epoch of its own slot,
    its number div 32, so a catch-up across an epoch boundary asks for
    both epochs. *)
Theorem C8_proposer_resolved_by_slot_number h previous_slot N w r w'
    (table table' : list ProposerDuties.DataItem) (s : Z)
    (Hunique : NoDup (ProposerDuties.slot <$> table))
    (Hperm : table ≡ₚ table')
    (Hrun : run_handler h previous_slot N w = (r, w')) :
  head (proposer_pubkeys table' s) = head (proposer_pubkeys table s)
  ∧ (∀ entry, entry ∈ table → ProposerDuties.slot entry = s →
       head (proposer_pubkeys table' s) = Some (ProposerDuties.pubkey entry))
  ∧ ∃ ds rest,
      slots_with_status previous_slot N = (outcome <$> ds) ++ rest
      ∧ (∀ m, r = Ok m → rest = [])
      ∧ Forall (λ d, answered h d
                     ∧ head (proposer_pubkeys (duties d) (number (outcome d)))
                       = Some (proposer d)) ds
      ∧ stdout w' = stdout w ++ (line_of h N <$> ds)
      ∧ duties_requests w'
        = duties_requests w
          ++ ((λ o, number o `div` 32) <$> (outcome <$> ds) ++ take 1 rest).
Proof.
  split_and!.
  - by rewrite (proposer_pubkeys_Permutation table table').
  - intros entry Hin Hs.
    rewrite (proposer_pubkeys_Permutation table table') by done.
    by rewrite (proposer_pubkeys_unique table s entry).
  - apply run_handler_trace in Hrun
      as (_ & ds & rest & Hos & Hok & Hout & _ & Hr).
    exists ds, rest. split_and!; try done.
    + intros m ->. by destruct Hr.
    + eapply Forall_impl; [exact Hok|]. by intros d (? & ? & ?).
    + destruct r as [m|e].
      * destruct Hr as [-> ->]. by rewrite Hos.
      * by destruct Hr as (o & rest' & -> & ->).
Qed.

(** C4 (as amended).  When the duties answered for a slot of the tick have
    no entry for that slot, the turn raises [StopIteration] and the tick
    ends there: the lines of the slots before it stay printed, nothing is
    printed or counted for that slot or for the slots after it, no further
    request is made and the handler raises instead of returning a slot. *)
Theorem C4_missing_duty_aborts_the_tick h previous_slot N w before o after
    w1 table outside'
    (Hslots : slots_with_status previous_slot N = before ++ o :: after)
    (Hbefore : for_each before (turn h N) w = (Ok (), w1))
    (Hfetch : fetch_duties h (epoch_of o) (env w1) = (Ok table, outside'))
    (Hmissing : ∀ entry, entry ∈ ProposerDuties.data table →
                  ProposerDuties.slot entry ≠ number o) :
  run_handler h previous_slot N w
  = (Raise StopIteration,
     {| env := outside'; stdout := stdout w1;
        missed_block_proposals_counter := missed_block_proposals_counter w1;
        duties_requests := duties_requests w1 ++ [epoch_of o] |}).
Proof.
  rewrite run_handler_unfold, Hslots, for_each_app, Hbefore, for_each_cons.
  by rewrite (turn_without_duty h N o w1 table outside')
    by (try apply proposer_pubkeys_none; done).
Qed.

Section Async.
Context (session : @ClientSession W) (beacon_url : string)
  (pubkeys_file_path : option string)
  (web3signer_urls : option (list string))
  (liveliness_file : option string).

Local Abbreviation loop :=
  (handler_async_loop session beacon_url pubkeys_file_path web3signer_urls
     liveliness_file).
Local Abbreviation tick := (λ event previous_slot,
  handler_event event previous_slot session beacon_url pubkeys_file_path
    web3signer_urls).

Lemma handler_async_loop_app events events' previous_slot w :
  loop (events ++ events') previous_slot w
  = let run := loop events previous_slot w in
    match raised run with
    | None => loop events' (previous_slot_number run) (world run)
    | Some _ => run
    end.
Proof.
  revert previous_slot w.
  induction events as [|event events IH]; intros previous_slot w; [done|].
  simpl. destruct (handler_event _ _ _ _ _ _ w) as [[n|e] w1]; [|done].
  destruct (write_liveliness_file _ _ w1) as [[[]|e] w2]; [apply IH|done].
Qed.

(** C5.  In a run of [handler_async], a tick whose handler raises (as
    when a query to the beacon node fails) ends the loop with the stored
    previous slot as it was when the tick began, whatever the ticks
    before it and the events after it; the stored slot changes only
    when [handler_event] has returned, and then to the slot it
    returned. *)
Theorem C5_failing_tick_keeps_previous_slot events event events'
    previous_slot w e w'
    (Hsofar :
       raised (handler_async_loop session beacon_url pubkeys_file_path
                 web3signer_urls liveliness_file events previous_slot w)
       = None)
    (Hfail :
       handler_event event
         (previous_slot_number
            (handler_async_loop session beacon_url pubkeys_file_path
               web3signer_urls liveliness_file events previous_slot w))
         session beacon_url pubkeys_file_path web3signer_urls
         (world
            (handler_async_loop session beacon_url pubkeys_file_path
               web3signer_urls liveliness_file events previous_slot w))
       = (Raise e, w')) :
  handler_async_loop session beacon_url pubkeys_file_path web3signer_urls
    liveliness_file (events ++ event :: events') previous_slot w
  = {| previous_slot_number :=
         previous_slot_number
           (handler_async_loop session beacon_url pubkeys_file_path
              web3signer_urls liveliness_file events previous_slot w);
       raised := Some e; world := w' |}
  ∧ ∀ event0 previous0 w0,
      previous_slot_number
        (handler_async_loop session beacon_url pubkeys_file_path
           web3signer_urls liveliness_file [event0] previous0 w0)
      = match handler_event event0 previous0 session beacon_url
                pubkeys_file_path web3signer_urls w0 with
        | (Ok current_slot_number, _) => Some current_slot_number
        | (Raise _, _) => previous0
        end.
Proof.
  split.
  - rewrite handler_async_loop_app. simpl. by rewrite Hsofar, Hfail.
  - intros event0 previous0 w0. simpl.
    destruct (handler_event _ _ _ _ _ _ w0) as [[n|e0] w1]; [|done].
    by destruct (write_liveliness_file _ _ w1) as [[[]|?] ?].
Qed.

Local Abbreviation on_event :=
  (OnEvent session beacon_url pubkeys_file_path web3signer_urls).

Lemma quiet_write_liveliness_file :
  quiet (write_liveliness_file session liveliness_file).
Proof.
  unfold write_liveliness_file.
  destruct liveliness_file; [apply quiet_call|apply quiet_ret].
Qed.

(** What a run printed is what its ticks reported, in order, up to
    the point where it stopped. *)
Lemma handler_async_loop_trace events previous_slot w :
  ∃ ds,
    stdout (world (loop events previous_slot w))
      = stdout w ++ (line_of_event <$> ds)
    ∧ Forall (decided on_event) ds
    ∧ (outcome <$> ds)
        `prefix_of` emitted (event_slots events) previous_slot.
Proof.
  revert previous_slot w.
  induction events as [|[[[N]|]] events IH]; intros previous_slot w.
  - exists []. simpl. rewrite app_nil_r. split_and!; [done|constructor|done].
  - simpl handler_async_loop.
    destruct (handler_event _ _ _ _ _ _ w) as [r w1] eqn:Hrun.
    apply (run_handler_trace on_event) in Hrun
      as (Hm & ds1 & rest & Hos & Hok & Hout & _ & Hr).
    simpl in Hos, Hout. unfold event_slots. simpl. rewrite Hos.
    destruct r as [m|e].
    + destruct Hr as [-> _]. rewrite app_nil_r.
      rewrite (Hm m eq_refl) in *.
      destruct (write_liveliness_file _ _ w1) as [[[]|e] w2] eqn:Hfile;
        apply quiet_write_liveliness_file in Hfile as (Hout2 & _).
      * destruct (IH (Some N) w2) as (ds2 & Hout3 & Hok2 & Hpre).
        exists (ds1 ++ ds2). split_and!.
        -- rewrite Hout3, Hout2, Hout, fmap_app. by rewrite <-app_assoc.
        -- by apply Forall_app.
        -- rewrite fmap_app. by apply prefix_app.
      * exists ds1. simpl. split_and!; [congruence|done|].
        by apply prefix_app_r.
    + exists ds1. simpl. split_and!; [done..|].
      rewrite <-app_assoc. by apply prefix_app_r.
  - exists []. simpl. rewrite app_nil_r.
    split_and!; [done|constructor|apply prefix_nil].
Qed.

(** C3 (as amended).  In a run of [handler_async] whose events come with
    strictly increasing slots, all above the previous slot the run
    starts from, no slot is reported twice: the lines printed are the
    reports of resolutions whose slots are pairwise distinct, within a
    tick and from one tick to the next; they are the slots of the
    successive ticks, in order, up to the point where the run
    stopped. *)
Theorem C3_increasing_ticks_report_each_slot_once events previous_slot w
    (Hsorted : StronglySorted Z.lt (event_slots events))
    (Hafter : ∀ P, previous_slot = Some P →
                Forall (λ N, P < N) (event_slots events)) :
  NoDup (number <$> emitted (event_slots events) previous_slot)
  ∧ ∃ ds,
      stdout (world (handler_async_loop session beacon_url pubkeys_file_path
                       web3signer_urls liveliness_file events previous_slot w))
        = stdout w ++ (line_of_event <$> ds)
      ∧ (outcome <$> ds)
          `prefix_of` emitted (event_slots events) previous_slot
      ∧ NoDup (number <$> (outcome <$> ds)).
Proof.
  pose proof (emitted_NoDup _ _ Hsorted Hafter) as Hnodup.
  split; [done|].
  destruct (handler_async_loop_trace events previous_slot w)
    as (ds & Hout & _ & Hpre).
  exists ds. split_and!; [done..|].
  destruct Hpre as [rest Hpre]. rewrite Hpre, fmap_app in Hnodup.
  by apply NoDup_app in Hnodup as [? _].
Qed.
End Async.

(** C10.  Loading the watched keys from a file that opens yields, for
    each line of the file, "0x" followed by the line stripped of its
    surrounding whitespace, as a set; a line of whitespace only yields
    "0x"; and a key "0x" + k is in the set exactly when some line
    strips to k, the key without its prefix. *)
Theorem C10_load_pubkeys_from_file (session : @ClientSession W) path w text
    outside'
    (Hopen : path_open session path (env w) = (Ok text, outside')) :
  load_pubkeys_from_file session path w
    = (Ok (pubkeys_of_lines (readlines text)),
       {| env := outside'; stdout := stdout w;
          missed_block_proposals_counter := missed_block_proposals_counter w;
          duties_requests := duties_requests w |})
  ∧ (∀ key, key ∈ pubkeys_of_lines (readlines text)
       ↔ ∃ line, line ∈ readlines text ∧ key = "0x" +:+ strip line)
  ∧ (∀ line, line ∈ readlines text → whitespace_only line = true →
       "0x" ∈ pubkeys_of_lines (readlines text))
  ∧ (∀ k, "0x" +:+ k ∈ pubkeys_of_lines (readlines text)
       ↔ ∃ line, line ∈ readlines text ∧ strip line = k).
Proof.
  split_and!.
  - unfold load_pubkeys_from_file. rewrite bind_unfold. unfold call.
    by rewrite Hopen.
  - apply pubkeys_of_lines_spec.
  - intros line Hin Hblank. apply pubkeys_of_lines_spec.
    exists line. by rewrite strip_whitespace_only.
  - intros k. rewrite pubkeys_of_lines_spec. split.
    + intros (line & Hin & Hkey). exists line. split; [done|].
      by injection Hkey.
    + intros (line & Hin & <-). by exists line.
Qed.

End Claims.

Lemma C1_counterexample :
  ¬ missed_reflects_block_presence (λ _, false) (Some 5) 6.
Proof.
  intros Hclaim.
  destruct (Hclaim {| number := 6; missed := false |}) as [_ Hmissed];
    [reflexivity|].
  by specialize (Hmissed eq_refl).
Qed.

(** ** The claims on examples *)

(** Slot 6 after slot 5: one line, slot 6 proposed. *)
Lemma C1_witness :
  run_handler (OnEvent (answering [duty "0xaa" 6] "") "http://localhost:5052"
                 None None) (Some 5) 6 (fresh ())
    = (Ok 6,
       {| env := ();
          stdout :=
            ["✅     validator 0xaa proposed block 6 ✅ - 🔑 0 keys watched"];
          missed_block_proposals_counter := 0; duties_requests := [0] |})
  ∧ last (slots_with_status (Some 5) 6)
    = Some {| number := 6; missed := false |}.
Proof.
  split; [reflexivity|].
  eapply proj1, (C1_trigger_slot_not_missed
    (OnEvent (answering [duty "0xaa" 6] "") "http://localhost:5052" None None)
    (Some 5) 6 (fresh ()) 6).
  vm_compute. reflexivity.
Defined.

(** From slot 0 to slot 3: slots 1, 2 and 3. *)
Lemma C2_witness :
  0 + 1 < 3
  ∧ run_handler
      (OnBlock (node [duty "0xaa" 1; duty "0xbb" 2; duty "0xcc" 3]) {["0xbb"]})
      (Some 0) 3 (fresh ())
    = (Ok 3,
       {| env := ();
          stdout :=
            ["💩     validator 0xaa missed   block at epoch 0 - slot 1 💩 - 🔑 1 keys watched";
             "❌ Our validator 0xbb missed   block at epoch 0 - slot 2 ❌ - 🔑 1 keys watched";
             "✅     validator 0xcc proposed block at epoch 0 - slot 3 ✅ - 🔑 1 keys watched"];
          missed_block_proposals_counter := 1; duties_requests := [0; 0; 0] |})
  ∧ number <$> slots_with_status (Some 0) 3 = [1; 2; 3].
Proof.
  split_and!; [lia|reflexivity|].
  eapply proj1, (C2_catch_up_covers_the_gap
    (OnBlock (node [duty "0xaa" 1; duty "0xbb" 2; duty "0xcc" 3]) {["0xbb"]})
    0 3 (fresh ()) 3); [lia|].
  vm_compute. reflexivity.
Defined.

(** The run of [handler_async] starts at slot 63. *)
Lemma C7_witness :
  run_handler (OnEvent (answering [duty "0xaa" 63] "") "http://localhost:5052"
                 None None) None 63 (fresh ())
    = (Ok 63,
       {| env := ();
          stdout :=
            ["✅     validator 0xaa proposed block 63 ✅ - 🔑 0 keys watched"];
          missed_block_proposals_counter := 0; duties_requests := [1] |})
  ∧ slots_with_status None 63 = [{| number := 63; missed := false |}].
Proof.
  split; [reflexivity|].
  eapply proj1, proj2, (C7_first_tick_single_slot
    (OnEvent (answering [duty "0xaa" 63] "") "http://localhost:5052" None None)
    63 (fresh ()) 63).
  vm_compute. reflexivity.
Defined.

(** Slot 3 after slot 5: slot 3 alone, and the handler returns 3. *)
Lemma C9_witness :
  3 ≤ 5
  ∧ run_handler (OnBlock (node [duty "0xaa" 3]) ∅) (Some 5) 3 (fresh ())
    = (Ok 3,
       {| env := ();
          stdout :=
            ["✅     validator 0xaa proposed block at epoch 0 - slot 3 ✅ - 🔑 0 keys watched"];
          missed_block_proposals_counter := 0; duties_requests := [0] |})
  ∧ slots_with_status (Some 5) 3 = [{| number := 3; missed := false |}].
Proof.
  split_and!; [lia|reflexivity|].
  eapply proj1, (C9_non_increasing_tick (OnBlock (node [duty "0xaa" 3]) ∅)
    5 3 (fresh ()) 3); [lia|].
  vm_compute. reflexivity.
Defined.


(** A catch-up from slot 30 to slot 33 asks for epoch 0 once and for
    epoch 1 twice; the duties may come in any order. *)
Lemma C8_witness :
  NoDup (ProposerDuties.slot
           <$> [duty "0xaa" 31; duty "0xbb" 32; duty "0xcc" 33])
  ∧ [duty "0xaa" 31; duty "0xbb" 32; duty "0xcc" 33]
      ≡ₚ [duty "0xcc" 33; duty "0xbb" 32; duty "0xaa" 31]
  ∧ run_handler
      (OnEvent (answering [duty "0xcc" 33; duty "0xbb" 32; duty "0xaa" 31] "")
         "http://localhost:5052" None None) (Some 30) 33 (fresh ())
    = (Ok 33,
       {| env := ();
          stdout :=
            ["💩     validator 0xaa missed   block 31 💩 - 🔑 0 keys watched";
             "💩     validator 0xbb missed   block 32 💩 - 🔑 0 keys watched";
             "✅     validator 0xcc proposed block 33 ✅ - 🔑 0 keys watched"];
          missed_block_proposals_counter := 0; duties_requests := [0; 1; 1] |})
  ∧ head (proposer_pubkeys
            [duty "0xcc" 33; duty "0xbb" 32; duty "0xaa" 31] 32)
    = head (proposer_pubkeys
              [duty "0xaa" 31; duty "0xbb" 32; duty "0xcc" 33] 32).
Proof.
  assert (NoDup (ProposerDuties.slot
                   <$> [duty "0xaa" 31; duty "0xbb" 32; duty "0xcc" 33]))
    as Hunique by (apply (bool_decide_unpack _); vm_compute; exact I).
  assert ([duty "0xaa" 31; duty "0xbb" 32; duty "0xcc" 33]
            ≡ₚ [duty "0xcc" 33; duty "0xbb" 32; duty "0xaa" 31]) as Hperm
    by exact (reverse_Permutation
                [duty "0xcc" 33; duty "0xbb" 32; duty "0xaa" 31]).
  split_and!; [exact Hunique|exact Hperm|reflexivity|].
  eapply proj1, (C8_proposer_resolved_by_slot_number
    (OnEvent (answering [duty "0xcc" 33; duty "0xbb" 32; duty "0xaa" 31] "")
       "http://localhost:5052" None None) (Some 30) 33 (fresh ()) (Ok 33) _
    _ _ 32 Hunique Hperm).
  vm_compute. reflexivity.
Defined.

(** The duties answered have entries for slots 1 and 3 only: the tick
    from slot 0 to slot 3 reports slot 1 and stops at slot 2. *)
Lemma C4_witness :
  slots_with_status (Some 0) 3
    = [{| number := 1; missed := true |}]
      ++ {| number := 2; missed := true |}
         :: [{| number := 3; missed := false |}]
  ∧ run_handler
      (OnEvent (answering [duty "0xaa" 1; duty "0xcc" 3] "")
         "http://localhost:5052" None None) (Some 0) 3 (fresh ())
    = (Raise StopIteration,
       {| env := ();
          stdout :=
            ["💩     validator 0xaa missed   block 1 💩 - 🔑 0 keys watched"];
          missed_block_proposals_counter := 0; duties_requests := [0; 0] |}).
Proof.
  split; [reflexivity|].
  apply (C4_missing_duty_aborts_the_tick
    (OnEvent (answering [duty "0xaa" 1; duty "0xcc" 3] "")
       "http://localhost:5052" None None) (Some 0) 3 (fresh ())
    [{| number := 1; missed := true |}] {| number := 2; missed := true |}
    [{| number := 3; missed := false |}]
    {| env := ();
       stdout :=
         ["💩     validator 0xaa missed   block 1 💩 - 🔑 0 keys watched"];
       missed_block_proposals_counter := 0; duties_requests := [0] |}
    {| ProposerDuties.data := [duty "0xaa" 1; duty "0xcc" 3] |} ()).
  - reflexivity.
  - reflexivity.
  - reflexivity.
  - intros entry Hin. simpl in Hin.
    apply elem_of_cons in Hin as [->|Hin]; [done|].
    apply list_elem_of_singleton in Hin as ->. done.
Defined.

(** On the same tick slot 3 has a duty, and yet it is neither requested
    nor reported: the tick stops at slot 2 instead of skipping it. *)
Lemma C4_counterexample :
  {| number := 3; missed := false |} ∈ slots_with_status (Some 0) 3
  ∧ head (proposer_pubkeys [duty "0xaa" 1; duty "0xcc" 3] 3) = Some "0xcc"
  ∧ run_handler
      (OnEvent (answering [duty "0xaa" 1; duty "0xcc" 3] "")
         "http://localhost:5052" None None) (Some 0) 3 (fresh ())
    = (Raise StopIteration,
       {| env := ();
          stdout :=
            ["💩     validator 0xaa missed   block 1 💩 - 🔑 0 keys watched"];
          missed_block_proposals_counter := 0; duties_requests := [0; 0] |}).
Proof.
  split_and!; [|reflexivity..].
  apply list_elem_of_In. vm_compute. auto.
Qed.

(** The node answers two duties requests: the tick of slot 5 returns,
    the tick of slot 7 fails at slot 7 and slot 5 stays the previous
    slot. *)
Lemma C5_witness :
  raised (handler_async_loop (failing_after [duty "0xaa" 5; duty "0xbb" 6])
            "http://localhost:5052" None None None [block_event 5] None
            (fresh 2%nat)) = None
  ∧ handler_async_loop (failing_after [duty "0xaa" 5; duty "0xbb" 6])
      "http://localhost:5052" None None None
      ([block_event 5] ++ block_event 7 :: [block_event 8]) None (fresh 2%nat)
    = {| previous_slot_number := Some 5;
         raised := Some UpstreamUnavailable;
         world :=
           {| env := 0%nat;
              stdout :=
                ["✅     validator 0xaa proposed block 5 ✅ - 🔑 0 keys watched";
                 "💩     validator 0xbb missed   block 6 💩 - 🔑 0 keys watched"];
              missed_block_proposals_counter := 0;
              duties_requests := [0; 0; 0] |} |}.
Proof.
  split; [reflexivity|].
  eapply proj1, (C5_failing_tick_keeps_previous_slot
    (failing_after [duty "0xaa" 5; duty "0xbb" 6]) "http://localhost:5052"
    None None None [block_event 5] (block_event 7) [block_event 8] None
    (fresh 2%nat) UpstreamUnavailable).
  - reflexivity.
  - reflexivity.
Defined.

(** Slots 5 and 7 in turn: slots 5, 6 and 7 are reported once each. *)
Lemma C3_witness :
  StronglySorted Z.lt (event_slots [block_event 5; block_event 7])
  ∧ (∀ P, None = Some P →
       Forall (λ N, P < N) (event_slots [block_event 5; block_event 7]))
  ∧ NoDup (number <$> emitted (event_slots [block_event 5; block_event 7])
                        None).
Proof.
  assert (StronglySorted Z.lt (event_slots [block_event 5; block_event 7]))
    as Hsorted.
  { repeat constructor. }
  assert (∀ P, None = Some P →
            Forall (λ N, P < N) (event_slots [block_event 5; block_event 7]))
    as Hafter by (intros P [=]).
  split_and!; [exact Hsorted|exact Hafter|].
  exact (proj1 (C3_increasing_ticks_report_each_slot_once
    (answering [duty "0xaa" 5; duty "0xbb" 6; duty "0xcc" 7] "")
    "http://localhost:5052" None None None
    [block_event 5; block_event 7] None (fresh ()) Hsorted Hafter)).
Defined.

(** Two block events for slot 5: slot 5 is reported by both ticks. *)
Lemma C3_counterexample :
  ∃ d,
    outcome d = {| number := 5; missed := false |}
    ∧ handler_async (answering [duty "0xaa" 5] "") "http://localhost:5052"
        None None None [block_event 5; block_event 5] ()
      = {| previous_slot_number := Some 5; raised := None;
           world :=
             {| env := (); stdout := line_of_event <$> [d; d];
                missed_block_proposals_counter := 0;
                duties_requests := [0; 0] |} |}
    ∧ ¬ NoDup (number <$> (outcome <$> [d; d]))
    ∧ ¬ NoDup (number <$> emitted (event_slots [block_event 5; block_event 5])
                            None).
Proof.
  exists {| outcome := {| number := 5; missed := false |};
            duties := [duty "0xaa" 5]; proposer := "0xaa"; watched := ∅ |}.
  split_and!; [reflexivity|reflexivity| |].
  - simpl. intros Hnodup. apply NoDup_cons in Hnodup as [Hin _].
    apply Hin. left.
  - intros Hnodup. apply NoDup_cons in Hnodup as [Hin _].
    apply Hin. left.
Qed.

(** A file with a key, a padded key, an empty line and a key written with
    its prefix. *)
Lemma C10_witness :
  load_pubkeys_from_file
      (answering [] ("aa" +:+ String newline (" bb  " +:+ String newline
                      (String newline ("0xcc" +:+ String newline "")))))
      "keys.txt" (fresh ())
    = (Ok {["0xaa"; "0xbb"; "0x"; "0x0xcc"]}, fresh ())
  ∧ "0xcc" ∉ ({["0xaa"; "0xbb"; "0x"; "0x0xcc"]} : gset string).
Proof.
  pose proof (C10_load_pubkeys_from_file
    (answering [] ("aa" +:+ String newline (" bb  " +:+ String newline
                    (String newline ("0xcc" +:+ String newline "")))))
    "keys.txt" (fresh ()) _ () eq_refl) as (Hload & _).
  split.
  - rewrite Hload. reflexivity.
  - apply (bool_decide_unpack _). vm_compute. exact I.
Defined.

(** * Further properties of the handlers *)

(** ** Strings *)

Lemma append_cons c s t : String c s +:+ t = String c (s +:+ t).
Proof. reflexivity. Qed.

Lemma append_nil_l s : "" +:+ s = s.
Proof. reflexivity. Qed.

Lemma append_nil_r s : s +:+ "" = s.
Proof. induction s as [|c s IH]; [done|]. by rewrite append_cons, IH. Qed.

Lemma append_assoc s1 s2 s3 : (s1 +:+ s2) +:+ s3 = s1 +:+ s2 +:+ s3.
Proof. induction s1 as [|c s1 IH]; [done|]. by rewrite !append_cons, IH. Qed.

Lemma rev_app_append s acc : String.rev_app s acc = String.rev s +:+ acc.
Proof.
  unfold String.rev. revert acc.
  induction s as [|c s IH]; intros acc; simpl; [done|].
  rewrite (IH (String c acc)), (IH (String c "")). by rewrite append_assoc.
Qed.

Lemma rev_cons c s : String.rev (String c s) = String.rev s +:+ String c "".
Proof. unfold String.rev at 1. simpl. apply rev_app_append. Qed.

Lemma rev_append s1 s2 :
  String.rev (s1 +:+ s2) = String.rev s2 +:+ String.rev s1.
Proof.
  induction s1 as [|c s1 IH].
  - change ("" +:+ s2) with s2. by rewrite append_nil_r.
  - by rewrite append_cons, !rev_cons, IH, append_assoc.
Qed.

Lemma rev_involutive s : String.rev (String.rev s) = s.
Proof.
  induction s as [|c s IH]; [done|].
  by rewrite rev_cons, rev_append, IH.
Qed.

Lemma whitespace_only_append s1 s2 :
  whitespace_only (s1 +:+ s2) = whitespace_only s1 && whitespace_only s2.
Proof.
  induction s1 as [|c s1 IH]; [done|].
  rewrite append_cons. simpl. by rewrite IH, andb_assoc.
Qed.

Lemma whitespace_only_rev s : whitespace_only (String.rev s) = whitespace_only s.
Proof.
  induction s as [|c s IH]; [done|].
  rewrite rev_cons, whitespace_only_append, IH. simpl.
  rewrite andb_true_r. apply andb_comm.
Qed.

Lemma lstrip_append s t :
  lstrip (s +:+ t)
  = if whitespace_only s then lstrip t else lstrip s +:+ t.
Proof.
  induction s as [|c s IH]; [done|].
  rewrite append_cons. simpl.
  destruct (isspace c); simpl; [apply IH|done].
Qed.

Lemma lstrip_empty_iff s : lstrip s = "" ↔ whitespace_only s = true.
Proof.
  induction s as [|c s IH]; simpl; [done|].
  destruct (isspace c); simpl; [done|]. split; intros; done.
Qed.

Lemma lstrip_idemp s : lstrip (lstrip s) = lstrip s.
Proof.
  induction s as [|c s IH]; simpl; [done|].
  destruct (isspace c) eqn:Hc; simpl; [done|by rewrite Hc].
Qed.

Lemma whitespace_only_lstrip s :
  whitespace_only (lstrip s) = true → lstrip s = "".
Proof. intros H. rewrite <-lstrip_idemp. by apply lstrip_empty_iff. Qed.

Lemma rstrip_append s t :
  rstrip (s +:+ t)
  = if whitespace_only t then rstrip s else s +:+ rstrip t.
Proof.
  unfold rstrip. rewrite rev_append, lstrip_append, whitespace_only_rev.
  destruct (whitespace_only t); [done|].
  by rewrite rev_append, rev_involutive.
Qed.

Lemma rstrip_empty_iff s : rstrip s = "" ↔ whitespace_only s = true.
Proof.
  unfold rstrip. rewrite <-whitespace_only_rev, <-lstrip_empty_iff.
  split; intros H.
  - by rewrite <-(rev_involutive (lstrip _)), H.
  - by rewrite H.
Qed.

Lemma strip_empty_iff s : strip s = "" ↔ whitespace_only s = true.
Proof.
  unfold strip. rewrite rstrip_empty_iff. split.
  - intros H. apply whitespace_only_lstrip in H. by apply lstrip_empty_iff.
  - intros H. apply lstrip_empty_iff in H. by rewrite H.
Qed.

(** Whitespace around a line does not change what is left of it. *)
Lemma strip_padding before s after :
  whitespace_only before = true → whitespace_only after = true →
  strip (before +:+ s +:+ after) = strip s.
Proof.
  intros Hbefore Hafter. unfold strip.
  rewrite lstrip_append, Hbefore, lstrip_append.
  destruct (whitespace_only s) eqn:Hs.
  - apply lstrip_empty_iff in Hafter as Hnil. rewrite Hnil.
    apply lstrip_empty_iff in Hs. by rewrite Hs.
  - by rewrite rstrip_append, Hafter.
Qed.

(** ** Lines *)

Lemma concat_cons x xs :
  String.concat "" (x :: xs) = x +:+ String.concat "" xs.
Proof. destruct xs; simpl; [by rewrite append_nil_r|done]. Qed.

Lemma readlines_from_concat line text :
  String.concat "" (readlines_from line text) = line +:+ text.
Proof.
  revert line. induction text as [|c text IH]; intros line; simpl.
  - rewrite append_nil_r. by destruct line.
  - destruct (Ascii.eqb c newline).
    + rewrite concat_cons, IH. by rewrite append_assoc.
    + rewrite IH. by rewrite append_assoc.
Qed.

Lemma append_not_empty s c t : s +:+ String c t ≠ "".
Proof. by destruct s. Qed.

Lemma readlines_from_not_empty line text :
  Forall (λ l, l ≠ "") (readlines_from line text).
Proof.
  revert line. induction text as [|c text IH]; intros line; simpl.
  - destruct line; by repeat constructor.
  - destruct (Ascii.eqb c newline); [|apply IH].
    constructor; [apply append_not_empty|apply IH].
Qed.

Lemma readlines_from_line line key rest :
  single_line key = true →
  readlines_from line (key +:+ String newline rest)
  = (line +:+ key +:+ String newline "") :: readlines_from "" rest.
Proof.
  revert line. induction key as [|c key IH]; intros line Hkey.
  - change ("" +:+ String newline rest) with (String newline rest).
    simpl. by rewrite ?Ascii.eqb_refl.
  - rewrite append_cons. simpl in *.
    apply andb_true_iff in Hkey as [Hc Hkey].
    destruct (Ascii.eqb c newline); [done|].
    rewrite IH by done. by rewrite append_assoc.
Qed.

Lemma readlines_keys_file keys :
  Forall (λ key, single_line key = true) keys →
  readlines (keys_file keys) = (λ key, key +:+ String newline "") <$> keys.
Proof.
  unfold readlines, keys_file. induction 1 as [|key keys Hkey _ IH]; [done|].
  rewrite fmap_cons, concat_cons, append_assoc, append_cons, append_nil_l.
  rewrite readlines_from_line by done. by rewrite IH.
Qed.

(** ** The slots of a run that goes on *)

Lemma last_above (ticks : list Z) (N : Z) :
  Forall (λ M, N < M) ticks → N ≤ default N (last ticks).
Proof.
  intros Hall. destruct (last ticks) as [L|] eqn:Hlast; simpl; [|lia].
  apply last_Some_elem_of in Hlast. rewrite Forall_forall in Hall.
  apply Hall in Hlast. lia.
Qed.

Lemma emitted_numbers ticks P :
  StronglySorted Z.lt ticks → Forall (λ N, P < N) ticks →
  number <$> emitted ticks (Some P)
  = seqZ (P + 1) (default P (last ticks) - P).
Proof.
  intros Hsorted. revert P.
  induction Hsorted as [|N ticks Hsorted IH HN]; intros P Hafter.
  - simpl. by rewrite seqZ_nil by lia.
  - apply Forall_cons in Hafter as [HPN Hafter]. simpl emitted.
    rewrite fmap_app, slots_with_status_gap, IH by done.
    pose proof (last_above ticks N HN) as Hlast.
    rewrite last_cons.
    replace (default P (match last ticks with
                        | Some y => Some y
                        | None => Some N
                        end)) with (default N (last ticks))
      by (by destruct (last ticks)).
    replace (default N (last ticks) - P)
      with ((N - P) + (default N (last ticks) - N)) by lia.
    rewrite seqZ_app by lia. do 2 f_equal. lia.
Qed.

Lemma emitted_numbers_first N ticks :
  StronglySorted Z.lt (N :: ticks) →
  number <$> emitted (N :: ticks) None
  = seqZ N (default N (last ticks) - N + 1).
Proof.
  intros Hsorted.
  change (emitted (N :: ticks) None) with (emitted (N :: ticks) (Some (N - 1))).
  rewrite emitted_numbers; [|done|].
  - rewrite last_cons. f_equal; [lia|].
    destruct (last ticks); simpl; lia.
  - apply StronglySorted_inv in Hsorted as [_ HN].
    constructor; [lia|]. eapply Forall_impl; [exact HN|]. simpl. lia.
Qed.

(** ** Counting the missed slots of a tick *)

Lemma filter_cons_bool {A : Type} (p : A → bool) (x : A) (l : list A) :
  filter (λ x, p x) (x :: l)
  = if p x then x :: filter (λ x, p x) l else filter (λ x, p x) l.
Proof.
  rewrite filter_cons. destruct (p x).
  - by rewrite decide_True.
  - by rewrite decide_False by (by intros []).
Qed.

Lemma length_filter_fmap {A B : Type} (f : A → B) (p : B → bool) (l : list A) :
  length (filter (λ y, p y) (f <$> l)) = length (filter (λ x, p (f x)) l).
Proof.
  induction l as [|x l IH]; [done|].
  rewrite fmap_cons, (filter_cons_bool p), (filter_cons_bool (λ x, p (f x))).
  destruct (p (f x)); simpl; by rewrite IH.
Qed.

Lemma length_filter_ext {A : Type} (p q : A → bool) (l : list A) :
  (∀ x, p x = q x) →
  length (filter (λ x, p x) l) = length (filter (λ x, q x) l).
Proof.
  intros Hpq. induction l as [|x l IH]; [done|].
  rewrite !filter_cons_bool, Hpq.
  destruct (q x); simpl; by rewrite IH.
Qed.

Lemma length_filter_impl {A : Type} (p q : A → bool) (l : list A) :
  (∀ x, p x = true → q x = true) →
  (length (filter (λ x, p x) l) ≤ length (filter (λ x, q x) l))%nat.
Proof.
  intros Hpq. induction l as [|x l IH]; [done|].
  rewrite !filter_cons_bool. destruct (p x) eqn:Hp.
  - rewrite (Hpq x Hp). simpl. lia.
  - destruct (q x); simpl; lia.
Qed.

Lemma length_filter_const_true {A : Type} (l : list A) :
  length (filter (λ _ : A, true) l) = length l.
Proof.
  induction l as [|x l IH]; [done|].
  rewrite (filter_cons_bool (λ _, true)). cbn [length]. f_equal. exact IH.
Qed.

Lemma missed_slots_count previous_slot N :
  length (filter (λ o, missed o) (slots_with_status previous_slot N))
  = Z.to_nat (N - default (N - 1) previous_slot - 1).
Proof.
  unfold slots_with_status. rewrite filter_app, length_app.
  rewrite (length_filter_fmap _ missed), (filter_cons_bool missed).
  rewrite (length_filter_ext _ (λ _, true)) by done.
  rewrite length_filter_const_true. unfold range. rewrite length_seqZ.
  destruct previous_slot; simpl; lia.
Qed.

Lemma fmap_constant {A B : Type} (f : A → B) (c : B) (l : list A) :
  Forall (λ x, f x = c) l → f <$> l = replicate (length l) c.
Proof.
  induction 1 as [|x l Hx _ IH]; [done|].
  rewrite fmap_cons, Hx, IH. done.
Qed.

(** ** The first duty of a slot *)

Lemma proposer_pubkeys_app table table' s :
  proposer_pubkeys (table ++ table') s
  = proposer_pubkeys table s ++ proposer_pubkeys table' s.
Proof. unfold proposer_pubkeys. by rewrite filter_app, fmap_app. Qed.

Lemma proposer_pubkeys_nil_inv table s :
  proposer_pubkeys table s = [] →
  ∀ entry, entry ∈ table → ProposerDuties.slot entry ≠ s.
Proof.
  unfold proposer_pubkeys. intros Hnil%fmap_nil_inv entry Hin Hs.
  exact (filter_nil_not_elem_of _ _ entry Hnil Hs Hin).
Qed.

(** ** The marker of a line *)

Lemma alarm_message_of_event proposer_public_key pubkeys slot_with_status :
  alarm (message_of_event proposer_public_key pubkeys slot_with_status)
  = bool_decide (proposer_public_key ∈ pubkeys) && missed slot_with_status.
Proof.
  unfold alarm, message_of_event.
  destruct (bool_decide _), (missed slot_with_status); reflexivity.
Qed.

Lemma alarm_message_of_detection current_slot epoch proposer_pubkey
    our_pubkeys slot_with_status :
  alarm (message_of_detection current_slot epoch proposer_pubkey our_pubkeys
           slot_with_status)
  = bool_decide (proposer_pubkey ∈ our_pubkeys) && missed slot_with_status.
Proof.
  unfold alarm, message_of_detection.
  destruct (bool_decide _), (missed slot_with_status); reflexivity.
Qed.

(** ** Properties of the pure parts *)

(** X11.  The proposer of a slot is the pubkey of the first duty of the answer
    whose slot is that slot, whatever comes after it. *)
Theorem proposer_is_first_duty_of_slot before entry after s
    (Hslot : ProposerDuties.slot entry = s)
    (Hbefore : ∀ other, other ∈ before → ProposerDuties.slot other ≠ s) :
  head (proposer_pubkeys (before ++ entry :: after) s)
  = Some (ProposerDuties.pubkey entry).
Proof.
  rewrite proposer_pubkeys_app, (proposer_pubkeys_none before) by done.
  unfold proposer_pubkeys. by rewrite filter_cons, decide_True.
Qed.

(** X12.  No proposer is found for a slot exactly when no duty of the answer has
    that slot. *)
Theorem no_proposer_iff_no_duty table s :
  head (proposer_pubkeys table s) = None
  ↔ ∀ entry, entry ∈ table → ProposerDuties.slot entry ≠ s.
Proof.
  rewrite head_None. split.
  - apply proposer_pubkeys_nil_inv.
  - apply proposer_pubkeys_none.
Qed.

(** X13.  Whitespace before and after a key on its line is dropped: the key
    watched is "0x" followed by the stripped key. *)
Theorem padded_key_is_watched lines before key after
    (Hline : before +:+ key +:+ after ∈ lines)
    (Hbefore : whitespace_only before = true)
    (Hafter : whitespace_only after = true) :
  "0x" +:+ strip key ∈ pubkeys_of_lines lines.
Proof.
  apply pubkeys_of_lines_spec. exists (before +:+ key +:+ after).
  split; [done|]. by rewrite strip_padding.
Qed.

(** X14.  The bare prefix "0x" is watched exactly when the file has a line of
    whitespace only. *)
Theorem bare_prefix_iff_blank_line lines :
  "0x" ∈ pubkeys_of_lines lines
  ↔ ∃ line, line ∈ lines ∧ whitespace_only line = true.
Proof.
  rewrite pubkeys_of_lines_spec. split.
  - intros (line & Hin & Hkey). exists line. split; [done|].
    apply strip_empty_iff. by injection Hkey.
  - intros (line & Hin & Hblank). exists line. split; [done|].
    by rewrite (proj2 (strip_empty_iff line) Hblank).
Qed.

(** X15.  The lines of a text put end to end give the text back, and none of
    them is empty. *)
Theorem readlines_concat text :
  String.concat "" (readlines text) = text
  ∧ Forall (λ line, line ≠ "") (readlines text).
Proof.
  split; [apply readlines_from_concat|apply readlines_from_not_empty].
Qed.

(** X16.  The keys of two lists of lines put together are the keys of each, and
    there are no more keys than lines. *)
Theorem pubkeys_of_lines_app lines lines' :
  pubkeys_of_lines (lines ++ lines')
    = pubkeys_of_lines lines ∪ pubkeys_of_lines lines'
  ∧ (size (pubkeys_of_lines lines) ≤ length lines)%nat.
Proof.
  split.
  - unfold pubkeys_of_lines. by rewrite fmap_app, list_to_set_app_L.
  - unfold pubkeys_of_lines. rewrite <-(length_fmap (λ line, "0x" +:+ strip line)).
    generalize ((λ line, "0x" +:+ strip line) <$> lines). intros keys.
    induction keys as [|key keys IH].
    + change (size (∅ : gset string) ≤ 0)%nat. by rewrite size_empty.
    + change (size ({[key]} ∪ list_to_set keys : gset string)
              ≤ S (length keys))%nat.
      rewrite size_union_alt, size_singleton.
      assert (list_to_set keys ∖ {[key]} ⊆ (list_to_set keys : gset string))
        as Hsub by (by intros x [? _]%elem_of_difference).
      apply subseteq_size in Hsub. lia.
Qed.

(** X18.  The line of [handle_missed_block_detection] carries the birthday tag
    exactly when the current slot of the tick starts an epoch, whatever
    slot the line is about. *)
Theorem birthday_follows_current_slot current_slot epoch proposer_pubkey
    our_pubkeys slot_with_status :
  ends_with " - 🎂"
    (message_of_detection current_slot epoch proposer_pubkey our_pubkeys
       slot_with_status)
  = bool_decide (current_slot `mod` NB_SLOT_PER_EPOCH = 0).
Proof.
  unfold ends_with, message_of_detection.
  destruct (decide (current_slot `mod` NB_SLOT_PER_EPOCH = 0)) as [Hmod|Hmod].
  - rewrite (bool_decide_eq_true_2 _ Hmod).
    destruct (bool_decide _), (missed slot_with_status); cbv [emojis];
      rewrite !rev_append, !append_assoc; reflexivity.
  - rewrite (bool_decide_eq_false_2 _ Hmod).
    destruct (bool_decide _), (missed slot_with_status); cbv [emojis];
      rewrite !rev_append, !append_assoc; reflexivity.
Qed.

Section Extras.
Context {W : Type}.
Implicit Types (w : @World W) (o : SlotWithStatus) (d : Resolution).
Implicit Types (h : @Handler W).
Local Abbreviation M := (@M W).

Lemma alarm_line_of h N d : alarm (line_of h N d) = ours_and_missed d.
Proof.
  destruct h; simpl;
    [apply alarm_message_of_event|apply alarm_message_of_detection].
Qed.

Lemma alarms_of_lines h N ds :
  length (filter (λ line, alarm line) (line_of h N <$> ds))
  = length (filter (λ d, ours_and_missed d) ds).
Proof.
  rewrite length_filter_fmap. apply length_filter_ext, alarm_line_of.
Qed.

(** X1.  However a tick ends, the counter has grown by the number of alarm
    lines (the lines that start with the cross mark) among the lines the
    tick printed. *)
Theorem counter_counts_alarm_lines h previous_slot N w r w'
    (Hrun : run_handler h previous_slot N w = (r, w')) :
  ∃ lines,
    stdout w' = stdout w ++ lines
    ∧ missed_block_proposals_counter w'
      = (missed_block_proposals_counter w
         + length (filter (λ line, alarm line) lines))%nat.
Proof.
  apply run_handler_trace in Hrun
    as (_ & ds & rest & _ & _ & Hout & Hcnt & _).
  exists (line_of h N <$> ds). split; [done|].
  by rewrite alarms_of_lines.
Qed.

(** X3.  The counter never goes down over a tick and grows by no more than the
    number of slots skipped since the previous slot. *)
Theorem counter_bounded_by_skipped_slots h previous_slot N w r w'
    (Hrun : run_handler h previous_slot N w = (r, w')) :
  (missed_block_proposals_counter w ≤ missed_block_proposals_counter w')%nat
  ∧ (missed_block_proposals_counter w'
     ≤ missed_block_proposals_counter w
       + Z.to_nat (N - default (N - 1) previous_slot - 1)%Z)%nat.
Proof.
  apply run_handler_trace in Hrun
    as (_ & ds & rest & Hos & _ & _ & Hcnt & _).
  split; [lia|]. rewrite Hcnt, <-missed_slots_count, Hos.
  rewrite filter_app, length_app, (length_filter_fmap outcome missed).
  assert (∀ d, ours_and_missed d = true → missed (outcome d) = true) as Himp.
  { intros d. unfold ours_and_missed. by intros [_ ?]%andb_true_iff. }
  pose proof (length_filter_impl ours_and_missed
                (λ d, missed (outcome d)) ds Himp) as Hle.
  lia.
Qed.

(** X4.  A catch-up whose slots all lie in the epoch of the current slot asks
    for the duties of that epoch once per slot. *)
Theorem catch_up_requests_duties_per_slot h P N w m w'
    (HPN : P < N)
    (Hepoch : (P + 1) `div` NB_SLOT_PER_EPOCH = N `div` NB_SLOT_PER_EPOCH)
    (Hrun : run_handler h (Some P) N w = (Ok m, w')) :
  duties_requests w'
  = duties_requests w
    ++ replicate (Z.to_nat (N - P)) (N `div` NB_SLOT_PER_EPOCH).
Proof.
  apply run_handler_returned in Hrun as (_ & ds & _ & _ & _ & _ & ->).
  f_equal.
  rewrite (fmap_constant epoch_of (N `div` NB_SLOT_PER_EPOCH)).
  - f_equal. rewrite <-(length_fmap number), slots_with_status_gap by done.
    rewrite length_seqZ. lia.
  - apply Forall_forall. intros o Ho. unfold epoch_of.
    assert (number o ∈ number <$> slots_with_status (Some P) N) as Hin
      by (by apply list_elem_of_fmap_2).
    rewrite slots_with_status_gap in Hin by done.
    apply elem_of_seqZ in Hin. unfold NB_SLOT_PER_EPOCH in *.
    pose proof (Z.div_le_mono (P + 1) (number o) 32) as Hlo.
    pose proof (Z.div_le_mono (number o) N 32) as Hhi. lia.
Qed.

(** X5.  When the duties request of a slot raises, the tick ends there with
    that exception: the lines of the slots before it stay printed, nothing
    is printed or counted for that slot or the slots after it, and the
    watched keys are not loaded for it. *)
Theorem failing_duties_request_aborts_the_tick h previous_slot N w
    before o after w1 e outside'
    (Hslots : slots_with_status previous_slot N = before ++ o :: after)
    (Hbefore : for_each before (turn h N) w = (Ok (), w1))
    (Hfetch : fetch_duties h (epoch_of o) (env w1) = (Raise e, outside')) :
  run_handler h previous_slot N w
  = (Raise e,
     {| env := outside'; stdout := stdout w1;
        missed_block_proposals_counter := missed_block_proposals_counter w1;
        duties_requests := duties_requests w1 ++ [epoch_of o] |}).
Proof.
  rewrite run_handler_unfold, Hslots, for_each_app, Hbefore, for_each_cons.
  unfold epoch_of in *.
  destruct h; simpl in *; unfold handle_slot, detect_slot;
    rewrite bind_unfold; simpl; rewrite bind_unfold; unfold call at 1;
    simpl; by rewrite Hfetch.
Qed.

(** X17.  A file that holds one key per line, each without surrounding
    whitespace, loads as the set of those keys with "0x" in front. *)
Theorem load_pubkeys_from_keys_file (session : @ClientSession W) path w keys
    outside'
    (Hkeys : Forall (λ key, single_line key = true ∧ strip key = key) keys)
    (Hopen : path_open session path (env w) = (Ok (keys_file keys), outside')) :
  load_pubkeys_from_file session path w
  = (Ok (list_to_set ((λ key, "0x" +:+ key) <$> keys)),
     {| env := outside'; stdout := stdout w;
        missed_block_proposals_counter := missed_block_proposals_counter w;
        duties_requests := duties_requests w |}).
Proof.
  unfold load_pubkeys_from_file. rewrite bind_unfold. unfold call.
  rewrite Hopen. unfold mret, M_ret. do 2 f_equal. unfold pubkeys_of_lines.
  rewrite readlines_keys_file
    by (eapply Forall_impl; [exact Hkeys|by intros key []]).
  rewrite <-list_fmap_compose. f_equal.
  apply Forall_fmap_ext_1. eapply Forall_impl; [exact Hkeys|].
  intros key [Hline Hstrip]. simpl.
  rewrite <-(append_nil_l (key +:+ String newline "")).
  by rewrite strip_padding, Hstrip.
Qed.


(** X6.  When a tick raises, it raised at one of its slots: the slots before
    that one have their lines, that slot and the slots after it have
    none, and the duties request of that slot is the last one made. *)
Theorem raising_tick_reports_the_slots_before h previous_slot N w e w'
    (Hrun : run_handler h previous_slot N w = (Raise e, w')) :
  ∃ ds o after,
    slots_with_status previous_slot N = (outcome <$> ds) ++ o :: after
    ∧ stdout w' = stdout w ++ (line_of h N <$> ds)
    ∧ duties_requests w'
      = duties_requests w ++ (epoch_of <$> (outcome <$> ds) ++ [o]).
Proof.
  apply run_handler_trace in Hrun
    as (_ & ds & rest & Hos & _ & Hout & _ & o & after & -> & Hreq).
  by exists ds, o, after.
Qed.

Section Async.
Context (session : @ClientSession W) (beacon_url : string)
  (pubkeys_file_path : option string)
  (web3signer_urls : option (list string))
  (liveliness_file : option string).

Local Abbreviation loop :=
  (handler_async_loop session beacon_url pubkeys_file_path web3signer_urls
     liveliness_file).
Local Abbreviation on_event :=
  (OnEvent session beacon_url pubkeys_file_path web3signer_urls).

(** What a run printed and counted, and where it stands when no tick
    raised. *)
Lemma handler_async_loop_account events previous_slot w :
  ∃ ds,
    stdout (world (loop events previous_slot w))
      = stdout w ++ (line_of_event <$> ds)
    ∧ missed_block_proposals_counter (world (loop events previous_slot w))
      = (missed_block_proposals_counter w
         + length (filter (λ d, ours_and_missed d) ds))%nat
    ∧ (raised (loop events previous_slot w) = None →
         outcome <$> ds = emitted (event_slots events) previous_slot
         ∧ length (event_slots events) = length events
         ∧ previous_slot_number (loop events previous_slot w)
           = match last (event_slots events) with
             | Some N => Some N
             | None => previous_slot
             end).
Proof.
  revert previous_slot w.
  induction events as [|[[[N]|]] events IH]; intros previous_slot w.
  - exists []. simpl. by rewrite app_nil_r, Nat.add_0_r.
  - simpl handler_async_loop.
    destruct (handler_event _ _ _ _ _ _ w) as [r w1] eqn:Hrun.
    apply (run_handler_trace on_event) in Hrun
      as (Hm & ds1 & rest & Hos & _ & Hout & Hcnt & Hr).
    simpl in Hout. destruct r as [m|e].
    + destruct Hr as [-> _]. rewrite app_nil_r in Hos.
      rewrite (Hm m eq_refl) in *.
      destruct (write_liveliness_file _ _ w1) as [[[]|e] w2] eqn:Hfile;
        apply quiet_write_liveliness_file in Hfile as (Hout2 & Hcnt2 & _).
      * destruct (IH (Some N) w2) as (ds2 & Hout3 & Hcnt3 & Hdone).
        exists (ds1 ++ ds2). split_and!.
        -- rewrite Hout3, Hout2, Hout, fmap_app. by rewrite <-app_assoc.
        -- rewrite Hcnt3, Hcnt2, Hcnt, filter_app, length_app. lia.
        -- intros Hnone. destruct (Hdone Hnone) as (Hds2 & Hlen & Hprev).
           unfold event_slots in *. simpl. rewrite last_cons.
           split_and!.
           ++ by rewrite fmap_app, Hds2, <-Hos.
           ++ simpl. f_equal. exact Hlen.
           ++ rewrite Hprev. by destruct (last _).
      * exists ds1. simpl. split_and!; [congruence..|done].
    + exists ds1. simpl. by split_and!.
  - exists []. simpl. rewrite app_nil_r, Nat.add_0_r. by split_and!.
Qed.

(** Over a run the counter grows by the number of alarm lines the run
    printed. *)
Theorem handler_async_loop_counts_alarm_lines events previous_slot w :
  ∃ lines,
    stdout (world (handler_async_loop session beacon_url pubkeys_file_path
                     web3signer_urls liveliness_file events
                     previous_slot w))
      = stdout w ++ lines
    ∧ missed_block_proposals_counter
        (world (handler_async_loop session beacon_url pubkeys_file_path
                  web3signer_urls liveliness_file events previous_slot w))
      = (missed_block_proposals_counter w
         + length (filter (λ line, alarm line) lines))%nat.
Proof.
  destruct (handler_async_loop_account events previous_slot w)
    as (ds & Hout & Hcnt & _).
  exists (line_of_event <$> ds). split; [done|].
  by rewrite Hcnt, (alarms_of_lines on_event 0).
Qed.

(** X2.  When [handler_async] stops, its counter is the number of alarm
    lines it printed. *)
Theorem handler_async_counter_is_alarm_lines events outside :
  missed_block_proposals_counter
    (world (handler_async session beacon_url pubkeys_file_path
              web3signer_urls liveliness_file events outside))
  = length
      (filter (λ line, alarm line)
         (stdout (world (handler_async session beacon_url
                           pubkeys_file_path web3signer_urls
                           liveliness_file events outside)))).
Proof.
  unfold handler_async.
  destruct (handler_async_loop_account events None
              {| env := outside; stdout := [];
                 missed_block_proposals_counter := 0;
                 duties_requests := [] |}) as (ds & -> & -> & _).
  simpl. by rewrite (alarms_of_lines on_event 0).
Qed.

(** X7.  A run in which no tick raised has handled every event, and its
    previous slot is the slot of the last event. *)
Theorem handler_async_loop_returns_latest_slot events previous_slot w
    (Hnone : raised (handler_async_loop session beacon_url
                       pubkeys_file_path web3signer_urls liveliness_file
                       events previous_slot w) = None) :
  length (event_slots events) = length events
  ∧ previous_slot_number
      (handler_async_loop session beacon_url pubkeys_file_path
         web3signer_urls liveliness_file events previous_slot w)
    = match last (event_slots events) with
      | Some N => Some N
      | None => previous_slot
      end.
Proof.
  destruct (handler_async_loop_account events previous_slot w)
    as (ds & _ & _ & Hdone).
  by destruct (Hdone Hnone) as (_ & ? & ?).
Qed.

(** X9.  When the liveliness file cannot be written after a tick, the run
    ends with that exception, the previous slot being already the slot
    the tick returned. *)
Theorem failing_liveliness_write_ends_the_run events event events'
    previous_slot w current_slot_number w1 e w2
    (Hsofar :
       raised (handler_async_loop session beacon_url pubkeys_file_path
                 web3signer_urls liveliness_file events previous_slot w)
       = None)
    (Htick :
       handler_event event
         (previous_slot_number
            (handler_async_loop session beacon_url pubkeys_file_path
               web3signer_urls liveliness_file events previous_slot w))
         session beacon_url pubkeys_file_path web3signer_urls
         (world
            (handler_async_loop session beacon_url pubkeys_file_path
               web3signer_urls liveliness_file events previous_slot w))
       = (Ok current_slot_number, w1))
    (Hwrite : write_liveliness_file session liveliness_file w1
              = (Raise e, w2)) :
  handler_async_loop session beacon_url pubkeys_file_path web3signer_urls
    liveliness_file (events ++ event :: events') previous_slot w
  = {| previous_slot_number := Some current_slot_number;
       raised := Some e; world := w2 |}
  ∧ stdout w2 = stdout w1
  ∧ missed_block_proposals_counter w2 = missed_block_proposals_counter w1.
Proof.
  split.
  - rewrite handler_async_loop_app. simpl.
    by rewrite Hsofar, Htick, Hwrite.
  - by apply quiet_write_liveliness_file in Hwrite as (? & ? & _).
Qed.

(** X8.  A run that starts without previous slot, gets events with strictly
    increasing slots and in which no tick raised has reported every
    slot from the first event's to the last event's, once and in
    order. *)
Theorem handler_async_loop_covers_every_slot N events w
    (Hsorted : StronglySorted Z.lt (event_slots (block_event N :: events)))
    (Hnone : raised (handler_async_loop session beacon_url
                       pubkeys_file_path web3signer_urls liveliness_file
                       (block_event N :: events) None w) = None) :
  ∃ ds,
    stdout (world (handler_async_loop session beacon_url pubkeys_file_path
                     web3signer_urls liveliness_file
                     (block_event N :: events) None w))
      = stdout w ++ (line_of_event <$> ds)
    ∧ number <$> (outcome <$> ds)
      = seqZ N (default N (last (event_slots events)) - N + 1).
Proof.
  destruct (handler_async_loop_account (block_event N :: events) None w)
    as (ds & Hout & _ & Hdone).
  destruct (Hdone Hnone) as (Hds & _ & _).
  exists ds. split; [done|]. rewrite Hds.
  by apply (emitted_numbers_first N (event_slots events)).
Qed.
End Async.
End Extras.

(** ** The keys of Web3Signer *)

Section Web3Signer.
Context {W : Type}.
Implicit Types (w : @World W).

Lemma gather_load_pubkeys_from_web3signer (session : @ClientSession W)
    (answer : string → list string) urls w :
  (∀ url outside,
     session_get_public_keys session url outside = (Ok (answer url), outside)) →
  gather (load_pubkeys_from_web3signer session) urls w
  = (Ok ((λ url, list_to_set (answer url)) <$> urls), w).
Proof.
  intros Hanswer. induction urls as [|url urls IH]; [done|].
  simpl gather. rewrite bind_unfold.
  unfold load_pubkeys_from_web3signer at 1. rewrite bind_unfold.
  unfold call. rewrite Hanswer. destruct w. simpl.
  rewrite bind_unfold, IH. done.
Qed.

(** X19.  When the Web3Signer instances answer the same whatever was asked
    before, the keys watched through them are the keys any of them lists,
    and they do not depend on the order in which the URLs are visited. *)
Theorem web3signer_keys_whatever_the_order (session : @ClientSession W)
    (answer : string → list string) urls urls' w
    (Hanswer : ∀ url outside,
       session_get_public_keys session url outside
       = (Ok (answer url), outside))
    (Hperm : urls ≡ₚ urls') :
  ∃ sets sets',
    gather (load_pubkeys_from_web3signer session) urls w = (Ok sets, w)
    ∧ gather (load_pubkeys_from_web3signer session) urls' w = (Ok sets', w)
    ∧ ⋃ sets = ⋃ sets'
    ∧ ∀ key, key ∈ ⋃ sets ↔ ∃ url, url ∈ urls ∧ key ∈ answer url.
Proof.
  exists ((λ url, list_to_set (answer url)) <$> urls),
         ((λ url, list_to_set (answer url)) <$> urls').
  rewrite !(gather_load_pubkeys_from_web3signer session answer) by done.
  assert (∀ l key,
            key ∈ ⋃ ((λ url, list_to_set (answer url) : gset string) <$> l)
            ↔ ∃ url, url ∈ l ∧ key ∈ answer url) as Hin.
  { intros l key. rewrite elem_of_union_list. split.
    - intros (X & (url & -> & Hurl)%list_elem_of_fmap & Hkey).
      exists url. split; [done|]. by apply elem_of_list_to_set in Hkey.
    - intros (url & Hurl & Hkey). exists (list_to_set (answer url)).
      split; [|by apply elem_of_list_to_set].
      apply list_elem_of_fmap. by exists url. }
  split_and!; [done..| |apply Hin].
  apply set_eq. intros key. rewrite !Hin.
  split; intros (url & Hurl & Hkey); exists url; split; try done.
  - by rewrite <-Hperm.
  - by rewrite Hperm.
Qed.
End Web3Signer.

(** ** The further properties on examples *)

(** Three slots, one alarm line, one count. *)
Lemma counter_counts_alarm_lines_witness :
  run_handler
      (OnBlock (node [duty "0xaa" 1; duty "0xbb" 2; duty "0xcc" 3]) {["0xbb"]})
      (Some 0) 3 (fresh ())
    = (Ok 3,
       {| env := ();
          stdout :=
            ["💩     validator 0xaa missed   block at epoch 0 - slot 1 💩 - 🔑 1 keys watched";
             "❌ Our validator 0xbb missed   block at epoch 0 - slot 2 ❌ - 🔑 1 keys watched";
             "✅     validator 0xcc proposed block at epoch 0 - slot 3 ✅ - 🔑 1 keys watched"];
          missed_block_proposals_counter := 1; duties_requests := [0; 0; 0] |})
  ∧ ∃ lines,
      ["💩     validator 0xaa missed   block at epoch 0 - slot 1 💩 - 🔑 1 keys watched";
       "❌ Our validator 0xbb missed   block at epoch 0 - slot 2 ❌ - 🔑 1 keys watched";
       "✅     validator 0xcc proposed block at epoch 0 - slot 3 ✅ - 🔑 1 keys watched"]
        = [] ++ lines
      ∧ 1%nat = (0 + length (filter (λ line, alarm line) lines))%nat.
Proof.
  split; [reflexivity|].
  eapply (counter_counts_alarm_lines
    (OnBlock (node [duty "0xaa" 1; duty "0xbb" 2; duty "0xcc" 3]) {["0xbb"]})
    (Some 0) 3 (fresh ()) (Ok 3)
    {| env := ();
       stdout :=
         ["💩     validator 0xaa missed   block at epoch 0 - slot 1 💩 - 🔑 1 keys watched";
          "❌ Our validator 0xbb missed   block at epoch 0 - slot 2 ❌ - 🔑 1 keys watched";
          "✅     validator 0xcc proposed block at epoch 0 - slot 3 ✅ - 🔑 1 keys watched"];
       missed_block_proposals_counter := 1; duties_requests := [0; 0; 0] |}).
  reflexivity.
Defined.

(** From slot 0 to slot 3 two slots were skipped: the counter grows by two
    at most. *)
Lemma counter_bounded_by_skipped_slots_witness :
  run_handler
      (OnBlock (node [duty "0xaa" 1; duty "0xbb" 2; duty "0xcc" 3]) {["0xbb"]})
      (Some 0) 3 (fresh ())
    = (Ok 3,
       {| env := ();
          stdout :=
            ["💩     validator 0xaa missed   block at epoch 0 - slot 1 💩 - 🔑 1 keys watched";
             "❌ Our validator 0xbb missed   block at epoch 0 - slot 2 ❌ - 🔑 1 keys watched";
             "✅     validator 0xcc proposed block at epoch 0 - slot 3 ✅ - 🔑 1 keys watched"];
          missed_block_proposals_counter := 1; duties_requests := [0; 0; 0] |})
  ∧ (0 ≤ 1)%nat
  ∧ (1 ≤ 0 + Z.to_nat (3 - default (3 - 1) (Some 0) - 1)%Z)%nat.
Proof.
  split; [reflexivity|].
  eapply (counter_bounded_by_skipped_slots
    (OnBlock (node [duty "0xaa" 1; duty "0xbb" 2; duty "0xcc" 3]) {["0xbb"]})
    (Some 0) 3 (fresh ()) (Ok 3)
    {| env := ();
       stdout :=
         ["💩     validator 0xaa missed   block at epoch 0 - slot 1 💩 - 🔑 1 keys watched";
          "❌ Our validator 0xbb missed   block at epoch 0 - slot 2 ❌ - 🔑 1 keys watched";
          "✅     validator 0xcc proposed block at epoch 0 - slot 3 ✅ - 🔑 1 keys watched"];
       missed_block_proposals_counter := 1; duties_requests := [0; 0; 0] |}).
  reflexivity.
Defined.

(** Slots 1, 2 and 3 are of epoch 0: three requests for epoch 0. *)
Lemma catch_up_requests_duties_per_slot_witness :
  0 < 3
  ∧ (0 + 1) `div` NB_SLOT_PER_EPOCH = 3 `div` NB_SLOT_PER_EPOCH
  ∧ run_handler
      (OnEvent (answering [duty "0xaa" 1; duty "0xbb" 2; duty "0xcc" 3] "")
         "http://localhost:5052" None None) (Some 0) 3 (fresh ())
    = (Ok 3,
       {| env := ();
          stdout :=
            ["💩     validator 0xaa missed   block 1 💩 - 🔑 0 keys watched";
             "💩     validator 0xbb missed   block 2 💩 - 🔑 0 keys watched";
             "✅     validator 0xcc proposed block 3 ✅ - 🔑 0 keys watched"];
          missed_block_proposals_counter := 0; duties_requests := [0; 0; 0] |})
  ∧ [0; 0; 0]
    = [] ++ replicate (Z.to_nat (3 - 0)) (3 `div` NB_SLOT_PER_EPOCH).
Proof.
  split_and!; [lia|reflexivity|reflexivity|].
  eapply (catch_up_requests_duties_per_slot
    (OnEvent (answering [duty "0xaa" 1; duty "0xbb" 2; duty "0xcc" 3] "")
       "http://localhost:5052" None None) 0 3 (fresh ()) 3
    {| env := ();
       stdout :=
         ["💩     validator 0xaa missed   block 1 💩 - 🔑 0 keys watched";
          "💩     validator 0xbb missed   block 2 💩 - 🔑 0 keys watched";
          "✅     validator 0xcc proposed block 3 ✅ - 🔑 0 keys watched"];
       missed_block_proposals_counter := 0; duties_requests := [0; 0; 0] |});
    [lia|reflexivity|reflexivity].
Defined.

(** The node answers one request: the tick from slot 0 to slot 3 reports
    slot 1 and raises at slot 2. *)
Lemma failing_duties_request_aborts_the_tick_witness :
  slots_with_status (Some 0) 3
    = [{| number := 1; missed := true |}]
      ++ {| number := 2; missed := true |}
         :: [{| number := 3; missed := false |}]
  ∧ run_handler
      (OnEvent (failing_after [duty "0xaa" 1; duty "0xbb" 2; duty "0xcc" 3])
         "http://localhost:5052" None None) (Some 0) 3 (fresh 1%nat)
    = (Raise UpstreamUnavailable,
       {| env := 0%nat;
          stdout :=
            ["💩     validator 0xaa missed   block 1 💩 - 🔑 0 keys watched"];
          missed_block_proposals_counter := 0; duties_requests := [0; 0] |}).
Proof.
  split; [reflexivity|].
  apply (failing_duties_request_aborts_the_tick
    (OnEvent (failing_after [duty "0xaa" 1; duty "0xbb" 2; duty "0xcc" 3])
       "http://localhost:5052" None None) (Some 0) 3 (fresh 1%nat)
    [{| number := 1; missed := true |}] {| number := 2; missed := true |}
    [{| number := 3; missed := false |}]
    {| env := 0%nat;
       stdout :=
         ["💩     validator 0xaa missed   block 1 💩 - 🔑 0 keys watched"];
       missed_block_proposals_counter := 0; duties_requests := [0] |}
    UpstreamUnavailable 0%nat); reflexivity.
Defined.

(** The same tick, seen from its result. *)
Lemma raising_tick_reports_the_slots_before_witness :
  run_handler
      (OnEvent (failing_after [duty "0xaa" 1; duty "0xbb" 2; duty "0xcc" 3])
         "http://localhost:5052" None None) (Some 0) 3 (fresh 1%nat)
    = (Raise UpstreamUnavailable,
       {| env := 0%nat;
          stdout :=
            ["💩     validator 0xaa missed   block 1 💩 - 🔑 0 keys watched"];
          missed_block_proposals_counter := 0; duties_requests := [0; 0] |})
  ∧ ∃ ds o after,
      slots_with_status (Some 0) 3 = (outcome <$> ds) ++ o :: after
      ∧ ["💩     validator 0xaa missed   block 1 💩 - 🔑 0 keys watched"]
        = [] ++ (line_of_event <$> ds)
      ∧ [0; 0] = [] ++ (epoch_of <$> (outcome <$> ds) ++ [o]).
Proof.
  split; [reflexivity|].
  eapply (raising_tick_reports_the_slots_before
    (OnEvent (failing_after [duty "0xaa" 1; duty "0xbb" 2; duty "0xcc" 3])
       "http://localhost:5052" None None) (Some 0) 3 (fresh 1%nat)
    UpstreamUnavailable
    {| env := 0%nat;
       stdout :=
         ["💩     validator 0xaa missed   block 1 💩 - 🔑 0 keys watched"];
       missed_block_proposals_counter := 0; duties_requests := [0; 0] |}).
  reflexivity.
Defined.

(** Events for slots 5 and 7: both handled, slot 7 is the previous slot. *)
Lemma handler_async_loop_returns_latest_slot_witness :
  raised (handler_async_loop
            (answering [duty "0xaa" 5; duty "0xbb" 6; duty "0xcc" 7] "")
            "http://localhost:5052" None None None
            [block_event 5; block_event 7] None (fresh ())) = None
  ∧ previous_slot_number
      (handler_async_loop
         (answering [duty "0xaa" 5; duty "0xbb" 6; duty "0xcc" 7] "")
         "http://localhost:5052" None None None
         [block_event 5; block_event 7] None (fresh ()))
    = Some 7.
Proof.
  split; [reflexivity|].
  eapply proj2, (handler_async_loop_returns_latest_slot
    (answering [duty "0xaa" 5; duty "0xbb" 6; duty "0xcc" 7] "")
    "http://localhost:5052" None None None
    [block_event 5; block_event 7] None (fresh ())).
  reflexivity.
Defined.

(** Events for slots 5 and 7: slots 5, 6 and 7 are reported. *)
Lemma handler_async_loop_covers_every_slot_witness :
  StronglySorted Z.lt (event_slots (block_event 5 :: [block_event 7]))
  ∧ raised (handler_async_loop
              (answering [duty "0xaa" 5; duty "0xbb" 6; duty "0xcc" 7] "")
              "http://localhost:5052" None None None
              (block_event 5 :: [block_event 7]) None (fresh ())) = None
  ∧ ∃ ds,
      stdout (world (handler_async_loop
                       (answering [duty "0xaa" 5; duty "0xbb" 6; duty "0xcc" 7]
                          "")
                       "http://localhost:5052" None None None
                       (block_event 5 :: [block_event 7]) None (fresh ())))
        = [] ++ (line_of_event <$> ds)
      ∧ number <$> (outcome <$> ds) = seqZ 5 (7 - 5 + 1).
Proof.
  assert (StronglySorted Z.lt (event_slots (block_event 5 :: [block_event 7])))
    as Hsorted by (repeat constructor).
  split_and!; [exact Hsorted|reflexivity|].
  apply (handler_async_loop_covers_every_slot
    (answering [duty "0xaa" 5; duty "0xbb" 6; duty "0xcc" 7] "")
    "http://localhost:5052" None None None 5 [block_event 7] (fresh ())
    Hsorted).
  reflexivity.
Defined.

(** The liveliness file cannot be written: the run ends after the tick of
    slot 5, with slot 5 as previous slot. *)
Lemma failing_liveliness_write_ends_the_run_witness :
  handler_async_loop (read_only [duty "0xaa" 5]) "http://localhost:5052"
      None None (Some "/tmp/liveliness") ([] ++ block_event 5 :: [block_event 6])
      None (fresh ())
  = {| previous_slot_number := Some 5; raised := Some OSError;
       world :=
         {| env := ();
            stdout :=
              ["✅     validator 0xaa proposed block 5 ✅ - 🔑 0 keys watched"];
            missed_block_proposals_counter := 0; duties_requests := [0] |} |}.
Proof.
  eapply proj1, (failing_liveliness_write_ends_the_run
    (read_only [duty "0xaa" 5]) "http://localhost:5052" None None
    (Some "/tmp/liveliness") [] (block_event 5) [block_event 6] None
    (fresh ()) 5
    {| env := ();
       stdout :=
         ["✅     validator 0xaa proposed block 5 ✅ - 🔑 0 keys watched"];
       missed_block_proposals_counter := 0; duties_requests := [0] |}
    OSError); reflexivity.
Defined.


(** Two duties for slot 2: the first one decides. *)
Lemma proposer_is_first_duty_of_slot_witness :
  ProposerDuties.slot (duty "0xbb" 2) = 2
  ∧ (∀ other, other ∈ [duty "0xaa" 1] → ProposerDuties.slot other ≠ 2)
  ∧ head (proposer_pubkeys
            ([duty "0xaa" 1] ++ duty "0xbb" 2 :: [duty "0xdd" 2; duty "0xcc" 3])
            2)
    = Some "0xbb".
Proof.
  assert (∀ other, other ∈ [duty "0xaa" 1] → ProposerDuties.slot other ≠ 2)
    as Hbefore by (by intros other ->%list_elem_of_singleton).
  split_and!; [reflexivity|exact Hbefore|].
  exact (proposer_is_first_duty_of_slot [duty "0xaa" 1] (duty "0xbb" 2)
           [duty "0xdd" 2; duty "0xcc" 3] 2 eq_refl Hbefore).
Defined.

(** A key between two spaces and a newline. *)
Lemma padded_key_is_watched_witness :
  "  " +:+ "aa" +:+ String " " (String newline "")
    ∈ ["  " +:+ "aa" +:+ String " " (String newline "")]
  ∧ whitespace_only "  " = true
  ∧ whitespace_only (String " " (String newline "")) = true
  ∧ "0x" +:+ strip "aa"
      ∈ pubkeys_of_lines ["  " +:+ "aa" +:+ String " " (String newline "")].
Proof.
  assert ("  " +:+ "aa" +:+ String " " (String newline "")
            ∈ ["  " +:+ "aa" +:+ String " " (String newline "")]) as Hline
    by (by apply list_elem_of_singleton).
  split_and!; [exact Hline|reflexivity|reflexivity|].
  exact (padded_key_is_watched _ "  " "aa" (String " " (String newline ""))
           Hline eq_refl eq_refl).
Defined.

(** A file with the keys aa and bb, one per line. *)
Lemma load_pubkeys_from_keys_file_witness :
  Forall (λ key, single_line key = true ∧ strip key = key) ["aa"; "bb"]
  ∧ path_open (answering [] (keys_file ["aa"; "bb"])) "keys.txt"
      (env (fresh ()))
    = (Ok (keys_file ["aa"; "bb"]), ())
  ∧ load_pubkeys_from_file (answering [] (keys_file ["aa"; "bb"])) "keys.txt"
      (fresh ())
    = (Ok {["0xaa"; "0xbb"]}, fresh ()).
Proof.
  assert (Forall (λ key, single_line key = true ∧ strip key = key)
            ["aa"; "bb"]) as Hkeys by (repeat constructor).
  split_and!; [exact Hkeys|reflexivity|].
  exact (load_pubkeys_from_keys_file
           (answering [] (keys_file ["aa"; "bb"])) "keys.txt" (fresh ())
           ["aa"; "bb"] () Hkeys eq_refl).
Defined.

(** Two signers, visited in either order. *)
Lemma web3signer_keys_whatever_the_order_witness :
  (∀ url outside,
     session_get_public_keys (signing (λ url, [url +:+ "/0xaa"])) url outside
     = (Ok [url +:+ "/0xaa"], outside))
  ∧ ["http://a"; "http://b"] ≡ₚ ["http://b"; "http://a"]
  ∧ ∃ sets sets',
      gather (load_pubkeys_from_web3signer (signing (λ url, [url +:+ "/0xaa"])))
        ["http://a"; "http://b"] (fresh ()) = (Ok sets, fresh ())
      ∧ gather (load_pubkeys_from_web3signer
                  (signing (λ url, [url +:+ "/0xaa"])))
          ["http://b"; "http://a"] (fresh ()) = (Ok sets', fresh ())
      ∧ ⋃ sets = ⋃ sets'.
Proof.
  assert (∀ url (outside : unit),
            session_get_public_keys (signing (λ url, [url +:+ "/0xaa"])) url
              outside
            = (Ok [url +:+ "/0xaa"], outside)) as Hanswer by done.
  assert (["http://a"; "http://b"] ≡ₚ ["http://b"; "http://a"]) as Hperm
    by apply Permutation_swap.
  split_and!; [exact Hanswer|exact Hperm|].
  destruct (web3signer_keys_whatever_the_order
              (signing (λ url, [url +:+ "/0xaa"])) (λ url, [url +:+ "/0xaa"])
              ["http://a"; "http://b"] ["http://b"; "http://a"] (fresh ())
              Hanswer Hperm) as (sets & sets' & H1 & H2 & H3 & _).
  by exists sets, sets'.
Defined.
